(** * iphone-favorites-saver: a shallow embedding of the reconciliation engine

    The development follows [src/iphone-favorites-saver.py].  It has two
    parts: the embedding of the program (string and path helpers of the
    Python runtime, the path normaliser, the schema resolver and metadata
    extractor, the file scanner, the matcher, the merge loop and the control
    flow of [main]), then the properties proved about it.

    Conventions of the embedding.
    - A Python [str] is a Rocq [string].  The case mappings and the digit
      and blank tests of [PyStr] are Python's on ASCII characters only:
      Python also maps letters, and counts digits and blanks, outside ASCII.
      A property that rests on them is stated for ASCII text ([is_ascii]),
      on which the embedding and the program agree.
    - [pathlib.Path] is modelled in its POSIX flavour.
    - A Python [dict] is an association list in insertion order: the program
      only inserts a key after testing that it is absent, and iterates in
      insertion order.
    - An SQLite column is read with the declared type of the Core Data
      schema: integer columns as [option Z], text columns as
      [option string], [None] being SQL's NULL.
    - The external collaborators (exiftool and the console prompt) are an
      interface over an abstract world; the calls made to them are recorded
      in a ghost trace. *)

From Stdlib Require Import String Ascii List ZArith Bool Arith Lia.
From Stdlib Require Import Numbers.DecimalString.
Import ListNotations.
Open Scope string_scope.
Open Scope list_scope.

(* ================================================================== *)
(** * Part I: the embedding                                            *)
(* ================================================================== *)

(** ** Python string operations *)

Module PyStr.

(** The character classes below are those of [str.upper], [str.lower],
    [str.isdigit] and [str.isspace] on an ASCII character; on a character
    above 127 they say what holds of no letter, digit or blank. *)

Definition char_is_ascii (c : ascii) : bool := (nat_of_ascii c <? 128)%nat.

Definition char_is_lower (c : ascii) : bool :=
  let n := nat_of_ascii c in ((97 <=? n) && (n <=? 122))%nat.

Definition char_is_upper (c : ascii) : bool :=
  let n := nat_of_ascii c in ((65 <=? n) && (n <=? 90))%nat.

Definition char_upper (c : ascii) : ascii :=
  if char_is_lower c then ascii_of_nat (nat_of_ascii c - 32) else c.

Definition char_lower (c : ascii) : ascii :=
  if char_is_upper c then ascii_of_nat (nat_of_ascii c + 32) else c.

Definition char_isdigit (c : ascii) : bool :=
  let n := nat_of_ascii c in ((48 <=? n) && (n <=? 57))%nat.

(** [str.isspace] on the ASCII range: TAB, LF, VT, FF, CR, FS, GS, RS, US
    and the space. *)
Definition char_isspace (c : ascii) : bool :=
  let n := nat_of_ascii c in
  (((9 <=? n) && (n <=? 13)) || ((28 <=? n) && (n <=? 32)))%nat.

Fixpoint map_chars (f : ascii -> ascii) (s : string) : string :=
  match s with
  | EmptyString => EmptyString
  | String c s' => String (f c) (map_chars f s')
  end.

Fixpoint all_chars (p : ascii -> bool) (s : string) : bool :=
  match s with
  | EmptyString => true
  | String c s' => p c && all_chars p s'
  end.

(** [s.upper()] and [s.lower()] for an ASCII [s]. *)
Definition upper (s : string) : string := map_chars char_upper s.
Definition lower (s : string) : string := map_chars char_lower s.

(** [s.isdigit()] for an ASCII [s]: false on the empty string. *)
Definition isdigit (s : string) : bool :=
  match s with
  | EmptyString => false
  | _ => all_chars char_isdigit s
  end.

(** [s.replace(a, b)] for one-character [a] and [b]. *)
Definition replace (a b : ascii) (s : string) : string :=
  map_chars (fun c => if Ascii.eqb c a then b else c) s.

(** [s.split(sep)] for a one-character separator: never the empty list. *)
Fixpoint split (sep : ascii) (s : string) : list string :=
  match s with
  | EmptyString => [EmptyString]
  | String c s' =>
      if Ascii.eqb c sep then EmptyString :: split sep s'
      else match split sep s' with
           | x :: xs => String c x :: xs
           | [] => [String c EmptyString]
           end
  end.

(** [sep.join(l)]. *)
Fixpoint join (sep : string) (l : list string) : string :=
  match l with
  | [] => EmptyString
  | [x] => x
  | x :: xs => x ++ sep ++ join sep xs
  end.

(** [s[:n]] and [s[n:]] for [0 <= n]. *)
Fixpoint take (n : nat) (s : string) : string :=
  match n, s with
  | S n', String c s' => String c (take n' s')
  | _, _ => EmptyString
  end.

Fixpoint drop (n : nat) (s : string) : string :=
  match n, s with
  | S n', String _ s' => drop n' s'
  | _, _ => s
  end.

(** [s[:-k]] for [0 < k]: the empty string when [s] is shorter than [k]. *)
Definition drop_last (k : nat) (s : string) : string :=
  take (String.length s - k) s.

(** [s.endswith(suffix)]. *)
Definition endswith (s suffix : string) : bool :=
  (String.length suffix <=? String.length s)%nat
  && String.eqb (drop (String.length s - String.length suffix) s) suffix.

(** [s.rfind(c)] for one character: the index of its last occurrence. *)
Fixpoint rfind (c : ascii) (s : string) : option nat :=
  match s with
  | EmptyString => None
  | String d s' =>
      match rfind c s' with
      | Some i => Some (S i)
      | None => if Ascii.eqb d c then Some 0 else None
      end
  end.

Fixpoint lstrip (s : string) : string :=
  match s with
  | EmptyString => EmptyString
  | String c s' => if char_isspace c then lstrip s' else s
  end.

Fixpoint rstrip (s : string) : string :=
  match s with
  | EmptyString => EmptyString
  | String c s' =>
      match rstrip s' with
      | EmptyString => if char_isspace c then EmptyString else String c EmptyString
      | r => String c r
      end
  end.

(** [s.strip()] for an ASCII [s]. *)
Definition strip (s : string) : string := rstrip (lstrip s).

(** Truthiness of a string: [bool(s)]. *)
Definition truthy (s : string) : bool := negb (String.eqb s EmptyString).

(** [x or ""] for an optional string [x]. *)
Definition or_empty (x : option string) : string :=
  match x with
  | Some s => s
  | None => EmptyString
  end.

(** [str(n)] for an integer. *)
Definition of_Z (n : Z) : string := NilZero.string_of_int (Z.to_int n).

End PyStr.

(** ** [pathlib.PurePosixPath] *)

Module PurePath.

(** A parsed path: its root ([""], ["/"] or ["//"]) and its components.
    Python's [parts] lists the root first; [names] are the components
    after it. *)
Record t : Type := mk { root : string; names : list string }.

Fixpoint leading (c : ascii) (s : string) : nat :=
  match s with
  | String d s' => if Ascii.eqb d c then S (leading c s') else 0
  | EmptyString => 0
  end.

(** Exactly two leading slashes are kept, any other number is one root. *)
Definition parse_root (s : string) : string :=
  match leading "/" s with
  | 0 => ""
  | 2 => "//"
  | _ => "/"
  end.

Definition kept_name (p : string) : bool :=
  negb (String.eqb p "") && negb (String.eqb p ".").

(** [Path(s)]: empty and ["."] components are dropped, [".."] is kept. *)
Definition parse (s : string) : t :=
  mk (parse_root s) (filter kept_name (PyStr.split "/" s)).

(** [p.as_posix()], which for this flavour is [str(p)]. *)
Definition as_posix (p : t) : string :=
  match root p, names p with
  | EmptyString, [] => "."
  | r, ns => r ++ PyStr.join "/" ns
  end.

(** [a / b]: a rooted right operand replaces the left one. *)
Definition joinpath (a b : t) : t :=
  if String.eqb (root b) "" then mk (root a) (names a ++ names b) else b.

(** [p.suffix]: the last component from its last dot on, unless the dot is
    the first or the last character. *)
Definition suffix (p : t) : string :=
  match rev (names p) with
  | [] => ""
  | name :: _ =>
      match PyStr.rfind "." name with
      | Some i =>
          if ((0 <? i) && (i <? String.length name - 1))%nat then PyStr.drop i name
          else ""
      | None => ""
      end
  end.

End PurePath.

(** ** Data model *)

Definition APPLE_SUFFIX : string := "APPLE".

Definition SUPPORTED_EXTENSIONS : list string :=
  [".jpg"; ".jpeg"; ".heic"; ".png"].

Definition EXIT_SUCCESS : Z := 0.
Definition EXIT_GENERAL_ERROR : Z := 1.
Definition EXIT_EXIFTOOL_MISSING : Z := 2.
Definition EXIT_INVALID_DB : Z := 3.
Definition EXIT_NO_PHOTOS : Z := 4.

Record PhotoMeta : Type := mkPhotoMeta {
  relative_path : string;
  favorite : bool;
  description : string
}.

Record FileRecord : Type := mkFileRecord {
  rel_path : string;
  full_path : string
}.

Record MatchedPhoto : Type := mkMatchedPhoto {
  record : FileRecord;
  meta : PhotoMeta
}.

Record ExifData : Type := mkExifData {
  rating : option Z;
  exif_description : option string
}.

(** ** Path normaliser *)

(** The test the program writes twice, in [truncate_to_apple_path] and in
    [scan_photo_files]:
    [part.upper().endswith(APPLE_SUFFIX) and part[:-5].isdigit()]. *)
Definition is_apple_part (part : string) : bool :=
  PyStr.endswith (PyStr.upper part) APPLE_SUFFIX
  && PyStr.isdigit (PyStr.drop_last 5 part).

Definition build_relative_path (directory filename : string) : string :=
  if String.eqb directory "" then filename
  else PurePath.as_posix
         (PurePath.joinpath (PurePath.parse directory) (PurePath.parse filename)).

(** The loop over [enumerate(parts)]: the index of the first part that
    passes the test. *)
Fixpoint first_apple_index (idx : nat) (parts : list string) : option nat :=
  match parts with
  | [] => None
  | part :: rest =>
      if is_apple_part part then Some idx
      else first_apple_index (S idx) rest
  end.

Definition truncate_to_apple_path (path_str : string) : string :=
  let parts := PyStr.split "/" (PyStr.replace "\" "/" path_str) in
  match first_apple_index 0 parts with
  | Some idx => PyStr.join "/" (skipn idx parts)
  | None => PyStr.replace "\" "/" path_str
  end.

Definition normalize_rel_path (rel : string) : string :=
  PyStr.lower (PurePath.as_posix (PurePath.parse rel)).

(** ** Schema resolver *)

(** The result of [fetch_table_names]: each table with its columns. *)
Definition Schema : Type := list (string * list string).

Fixpoint schema_lookup (name : string) (tables : Schema) : option (list string) :=
  match tables with
  | [] => None
  | (t, cols) :: rest => if String.eqb t name then Some cols else schema_lookup name rest
  end.

(** [name in tables]. *)
Definition has_table (name : string) (tables : Schema) : bool :=
  match schema_lookup name tables with
  | Some _ => true
  | None => false
  end.

(** [tables.get(name, [])], and [tables[name]] behind a membership test. *)
Definition columns_of (tables : Schema) (name : string) : list string :=
  match schema_lookup name tables with
  | Some cols => cols
  | None => []
  end.

(** [column in cols]. *)
Definition has_column (column : string) (cols : list string) : bool :=
  existsb (String.eqb column) cols.

(** The five LEFT JOIN clauses the resolver can emit. *)
Inductive Join : Type :=
| JoinAttrsForward   (* ZASSET.ZADDITIONALATTRIBUTES = ZADDITIONALASSETATTRIBUTES.Z_PK *)
| JoinAttrsBackward  (* ZASSET.Z_PK = ZADDITIONALASSETATTRIBUTES.ZASSET *)
| JoinDescForward    (* ZADDITIONALASSETATTRIBUTES.ZASSETDESCRIPTION = ZASSETDESCRIPTION.Z_PK *)
| JoinDescBackward   (* ZASSETDESCRIPTION.ZASSETATTRIBUTES = ZADDITIONALASSETATTRIBUTES.Z_PK *)
| JoinExtended.      (* ZASSET.Z_PK = ZEXTENDEDATTRIBUTES.ZASSET *)

(** The three description sources, each read through [NULLIF(column, '')]. *)
Inductive DescClause : Type :=
| ClauseTitle     (* ZADDITIONALASSETATTRIBUTES.ZTITLE *)
| ClauseLong      (* ZASSETDESCRIPTION.ZLONGDESCRIPTION *)
| ClauseCaption.  (* ZEXTENDEDATTRIBUTES.ZCAPTION *)

Record QueryPlan : Type := mkPlan {
  joins : list Join;
  desc_clauses : list DescClause
}.

Definition join_sql (j : Join) : string :=
  match j with
  | JoinAttrsForward =>
      "LEFT JOIN ZADDITIONALASSETATTRIBUTES ON ZASSET.ZADDITIONALATTRIBUTES = ZADDITIONALASSETATTRIBUTES.Z_PK"
  | JoinAttrsBackward =>
      "LEFT JOIN ZADDITIONALASSETATTRIBUTES ON ZASSET.Z_PK = ZADDITIONALASSETATTRIBUTES.ZASSET"
  | JoinDescForward =>
      "LEFT JOIN ZASSETDESCRIPTION ON ZADDITIONALASSETATTRIBUTES.ZASSETDESCRIPTION = ZASSETDESCRIPTION.Z_PK"
  | JoinDescBackward =>
      "LEFT JOIN ZASSETDESCRIPTION ON ZASSETDESCRIPTION.ZASSETATTRIBUTES = ZADDITIONALASSETATTRIBUTES.Z_PK"
  | JoinExtended =>
      "LEFT JOIN ZEXTENDEDATTRIBUTES ON ZASSET.Z_PK = ZEXTENDEDATTRIBUTES.ZASSET"
  end.

Definition clause_sql (c : DescClause) : string :=
  match c with
  | ClauseTitle => "NULLIF(ZADDITIONALASSETATTRIBUTES.ZTITLE, '')"
  | ClauseLong => "NULLIF(ZASSETDESCRIPTION.ZLONGDESCRIPTION, '')"
  | ClauseCaption => "NULLIF(ZEXTENDEDATTRIBUTES.ZCAPTION, '')"
  end.

(** [build_metadata_query], returning the plan whose text the program
    builds; [desc_clauses.insert(0, x)] is a cons and [append] goes to the
    end. *)
Definition build_metadata_query (tables : Schema) : QueryPlan :=
  let zasset_cols := columns_of tables "ZASSET" in
  let is_ios18 := has_column "ZADDITIONALATTRIBUTES" zasset_cols in
  (* First join: ZASSET -> ZADDITIONALASSETATTRIBUTES *)
  let '(joins1, desc1) :=
    if has_table "ZADDITIONALASSETATTRIBUTES" tables then
      ([if is_ios18 then JoinAttrsForward else JoinAttrsBackward],
       if has_column "ZTITLE" (columns_of tables "ZADDITIONALASSETATTRIBUTES")
       then [ClauseTitle] else [])
    else ([], []) in
  (* Second join: ZADDITIONALASSETATTRIBUTES -> ZASSETDESCRIPTION *)
  let '(joins2, desc2) :=
    if has_table "ZASSETDESCRIPTION" tables
       && has_table "ZADDITIONALASSETATTRIBUTES" tables then
      let aaa_cols := columns_of tables "ZADDITIONALASSETATTRIBUTES" in
      let desc_cols := columns_of tables "ZASSETDESCRIPTION" in
      (if has_column "ZASSETDESCRIPTION" aaa_cols then joins1 ++ [JoinDescForward]
       else if has_column "ZASSETATTRIBUTES" desc_cols then joins1 ++ [JoinDescBackward]
       else joins1,
       if has_column "ZLONGDESCRIPTION" (columns_of tables "ZASSETDESCRIPTION")
       then ClauseLong :: desc1 else desc1)
    else (joins1, desc1) in
  (* Third join: ZEXTENDEDATTRIBUTES *)
  if has_table "ZEXTENDEDATTRIBUTES" tables
     && has_column "ZCAPTION" (columns_of tables "ZEXTENDEDATTRIBUTES") then
    mkPlan (joins2 ++ [JoinExtended]) (desc2 ++ [ClauseCaption])
  else mkPlan joins2 desc2.

(** The second component of the program's result: the description
    expression. *)
Definition desc_expr_sql (plan : QueryPlan) : string :=
  match desc_clauses plan with
  | [] => "''"
  | cs => "COALESCE(" ++ PyStr.join ", " (map clause_sql cs) ++ ", '')"
  end.

(** The first component: the query text, blanks already collapsed as
    [" ".join(query.split())] leaves them. *)
Definition query_sql (plan : QueryPlan) : string :=
  "SELECT ZASSET.ZFILENAME, ZASSET.ZDIRECTORY, ZASSET.ZFAVORITE, "
  ++ desc_expr_sql plan ++ " AS DESCRIPTION FROM ZASSET "
  ++ match joins plan with
     | [] => ""
     | js => PyStr.join " " (map join_sql js) ++ " "
     end
  ++ "WHERE ZASSET.ZTRASHEDSTATE = 0 AND (ZASSET.ZFAVORITE = 1 OR "
  ++ desc_expr_sql plan ++ " != '')".

(** ** The metadata store and the evaluation of the query *)

Record AssetRow : Type := mkAsset {
  Z_PK : option Z;
  ZFILENAME : option string;
  ZDIRECTORY : option string;
  ZFAVORITE : option Z;
  ZTRASHEDSTATE : option Z;
  ZADDITIONALATTRIBUTES : option Z
}.

Record AttributesRow : Type := mkAttributes {
  aaa_Z_PK : option Z;
  aaa_ZASSET : option Z;
  aaa_ZTITLE : option string;
  aaa_ZASSETDESCRIPTION : option Z
}.

Record DescriptionRow : Type := mkDescription {
  ad_Z_PK : option Z;
  ad_ZASSETATTRIBUTES : option Z;
  ad_ZLONGDESCRIPTION : option string
}.

Record ExtendedRow : Type := mkExtended {
  ext_ZASSET : option Z;
  ext_ZCAPTION : option string
}.

(** The store as the program sees it: its schema, the rows of the four
    tables the query can touch, and whether the storage layer fails (a
    locked or corrupt file, an engine error) when [validate_database] or
    when [read_database_metadata] opens and queries it.  A field of a row
    whose column the schema lacks is never read by a query that runs. *)
Record Store : Type := mkStore {
  tables : Schema;
  ZASSET : list AssetRow;
  ZADDITIONALASSETATTRIBUTES : list AttributesRow;
  ZASSETDESCRIPTION : list DescriptionRow;
  ZEXTENDEDATTRIBUTES : list ExtendedRow;
  fault_on_validate : bool;
  fault_on_read : bool
}.

Module Sql.

(** SQL's three-valued logic: [None] is NULL (unknown). *)
Definition truth : Type := option bool.

Definition and3 (a b : truth) : truth :=
  match a, b with
  | Some false, _ | _, Some false => Some false
  | Some true, Some true => Some true
  | _, _ => None
  end.

Definition or3 (a b : truth) : truth :=
  match a, b with
  | Some true, _ | _, Some true => Some true
  | Some false, Some false => Some false
  | _, _ => None
  end.

(** [x = y] on integers. *)
Definition eq_int (x y : option Z) : truth :=
  match x, y with
  | Some a, Some b => Some (Z.eqb a b)
  | _, _ => None
  end.

(** [x != y] on text. *)
Definition ne_text (x y : option string) : truth :=
  match x, y with
  | Some a, Some b => Some (negb (String.eqb a b))
  | _, _ => None
  end.

(** A row is kept by WHERE, and a pair of rows by ON, only when the
    condition is true. *)
Definition holds (t : truth) : bool :=
  match t with
  | Some true => true
  | _ => false
  end.

(** [NULLIF(x, y)]. *)
Definition nullif (x : option string) (y : string) : option string :=
  match x with
  | Some a => if String.eqb a y then None else Some a
  | None => None
  end.

(** [COALESCE(x1, ..., xn)]: the first argument that is not NULL. *)
Fixpoint coalesce (xs : list (option string)) : option string :=
  match xs with
  | [] => None
  | Some a :: _ => Some a
  | None :: rest => coalesce rest
  end.

(** [LEFT JOIN]: every left row with each right row the condition keeps,
    or once, unextended, when there is none. *)
Definition left_join {L R : Type} (on : L -> R -> bool) (extend : L -> R -> L)
    (right : list R) (left : list L) : list L :=
  flat_map
    (fun l =>
       match filter (on l) right with
       | [] => [l]
       | matches => map (extend l) matches
       end)
    left.

End Sql.

(** A row of [FROM ZASSET LEFT JOIN ...]: the asset and, for each joined
    table, the row it was extended with ([None]: every column NULL). *)
Record JoinedRow : Type := mkJoined {
  j_asset : AssetRow;
  j_attrs : option AttributesRow;
  j_desc : option DescriptionRow;
  j_ext : option ExtendedRow
}.

(** A column of a joined table that may be unmatched. *)
Definition col {R A : Type} (row : option R) (f : R -> option A) : option A :=
  match row with
  | Some r => f r
  | None => None
  end.

Definition join_on (j : Join) (db : Store) (rows : list JoinedRow) : list JoinedRow :=
  match j with
  | JoinAttrsForward =>
      Sql.left_join
        (fun l r => Sql.holds (Sql.eq_int (ZADDITIONALATTRIBUTES (j_asset l)) (aaa_Z_PK r)))
        (fun l r => mkJoined (j_asset l) (Some r) (j_desc l) (j_ext l))
        (ZADDITIONALASSETATTRIBUTES db) rows
  | JoinAttrsBackward =>
      Sql.left_join
        (fun l r => Sql.holds (Sql.eq_int (Z_PK (j_asset l)) (aaa_ZASSET r)))
        (fun l r => mkJoined (j_asset l) (Some r) (j_desc l) (j_ext l))
        (ZADDITIONALASSETATTRIBUTES db) rows
  | JoinDescForward =>
      Sql.left_join
        (fun l r => Sql.holds (Sql.eq_int (col (j_attrs l) aaa_ZASSETDESCRIPTION) (ad_Z_PK r)))
        (fun l r => mkJoined (j_asset l) (j_attrs l) (Some r) (j_ext l))
        (ZASSETDESCRIPTION db) rows
  | JoinDescBackward =>
      Sql.left_join
        (fun l r => Sql.holds (Sql.eq_int (ad_ZASSETATTRIBUTES r) (col (j_attrs l) aaa_Z_PK)))
        (fun l r => mkJoined (j_asset l) (j_attrs l) (Some r) (j_ext l))
        (ZASSETDESCRIPTION db) rows
  | JoinExtended =>
      Sql.left_join
        (fun l r => Sql.holds (Sql.eq_int (Z_PK (j_asset l)) (ext_ZASSET r)))
        (fun l r => mkJoined (j_asset l) (j_attrs l) (j_desc l) (Some r))
        (ZEXTENDEDATTRIBUTES db) rows
  end.

(** The FROM clause: the joins applied left to right. *)
Definition joined_rows (plan : QueryPlan) (db : Store) : list JoinedRow :=
  fold_left (fun rows j => join_on j db rows) (joins plan)
    (map (fun a => mkJoined a None None None) (ZASSET db)).

Definition clause_value (c : DescClause) (row : JoinedRow) : option string :=
  match c with
  | ClauseTitle => Sql.nullif (col (j_attrs row) aaa_ZTITLE) ""
  | ClauseLong => Sql.nullif (col (j_desc row) ad_ZLONGDESCRIPTION) ""
  | ClauseCaption => Sql.nullif (col (j_ext row) ext_ZCAPTION) ""
  end.

(** The value of the description expression on a row: [COALESCE(..., '')]
    over the clauses, or the literal [''] when there is none. *)
Definition desc_value (plan : QueryPlan) (row : JoinedRow) : option string :=
  match desc_clauses plan with
  | [] => Some ""
  | cs => Sql.coalesce (map (fun c => clause_value c row) cs ++ [Some ""])
  end.

(** [WHERE ZASSET.ZTRASHEDSTATE = 0 AND (ZASSET.ZFAVORITE = 1 OR desc != '')]. *)
Definition where_clause (plan : QueryPlan) (row : JoinedRow) : bool :=
  Sql.holds
    (Sql.and3
       (Sql.eq_int (ZTRASHEDSTATE (j_asset row)) (Some 0%Z))
       (Sql.or3 (Sql.eq_int (ZFAVORITE (j_asset row)) (Some 1%Z))
                (Sql.ne_text (desc_value plan row) (Some "")))).

(** The table a join brings into scope, and the columns the query names. *)
Definition join_table (j : Join) : string :=
  match j with
  | JoinAttrsForward | JoinAttrsBackward => "ZADDITIONALASSETATTRIBUTES"
  | JoinDescForward | JoinDescBackward => "ZASSETDESCRIPTION"
  | JoinExtended => "ZEXTENDEDATTRIBUTES"
  end.

Definition join_columns (j : Join) : list (string * string) :=
  match j with
  | JoinAttrsForward =>
      [("ZASSET", "ZADDITIONALATTRIBUTES"); ("ZADDITIONALASSETATTRIBUTES", "Z_PK")]
  | JoinAttrsBackward =>
      [("ZASSET", "Z_PK"); ("ZADDITIONALASSETATTRIBUTES", "ZASSET")]
  | JoinDescForward =>
      [("ZADDITIONALASSETATTRIBUTES", "ZASSETDESCRIPTION"); ("ZASSETDESCRIPTION", "Z_PK")]
  | JoinDescBackward =>
      [("ZASSETDESCRIPTION", "ZASSETATTRIBUTES"); ("ZADDITIONALASSETATTRIBUTES", "Z_PK")]
  | JoinExtended =>
      [("ZASSET", "Z_PK"); ("ZEXTENDEDATTRIBUTES", "ZASSET")]
  end.

Definition clause_column (c : DescClause) : string * string :=
  match c with
  | ClauseTitle => ("ZADDITIONALASSETATTRIBUTES", "ZTITLE")
  | ClauseLong => ("ZASSETDESCRIPTION", "ZLONGDESCRIPTION")
  | ClauseCaption => ("ZEXTENDEDATTRIBUTES", "ZCAPTION")
  end.

Definition named_columns (plan : QueryPlan) : list (string * string) :=
  [("ZASSET", "ZFILENAME"); ("ZASSET", "ZDIRECTORY"); ("ZASSET", "ZFAVORITE");
   ("ZASSET", "ZTRASHEDSTATE")]
  ++ flat_map join_columns (joins plan)
  ++ map clause_column (desc_clauses plan).

(** The engine prepares the statement only when every [table.column] it
    names is a column of a table of the FROM clause. *)
Definition column_resolves (tables : Schema) (plan : QueryPlan)
    (tc : string * string) : bool :=
  (String.eqb (fst tc) "ZASSET"
   || existsb (fun j => String.eqb (join_table j) (fst tc)) (joins plan))
  && has_column (snd tc) (columns_of tables (fst tc)).

Definition statement_prepares (tables : Schema) (plan : QueryPlan) : bool :=
  forallb (column_resolves tables plan) (named_columns plan).

Record ResultRow : Type := mkRow {
  row_ZFILENAME : option string;
  row_ZDIRECTORY : option string;
  row_ZFAVORITE : option Z;
  row_DESCRIPTION : option string
}.

Definition select_row (plan : QueryPlan) (row : JoinedRow) : ResultRow :=
  mkRow (ZFILENAME (j_asset row)) (ZDIRECTORY (j_asset row))
        (ZFAVORITE (j_asset row)) (desc_value plan row).

Definition fetch_table_names (db : Store) : Schema := tables db.

(** The [try] block of [read_database_metadata]: [None] is a raised
    [sqlite3.Error]. *)
Definition query_rows (db : Store) : option (list ResultRow) :=
  if fault_on_read db then None
  else
    let plan := build_metadata_query (fetch_table_names db) in
    if statement_prepares (tables db) plan
    then Some (map (select_row plan) (filter (where_clause plan) (joined_rows plan db)))
    else None.

(** ** Metadata extractor *)

(** [key in d] and [d.get(key)] on a dictionary in insertion order. *)
Fixpoint dict_get {V : Type} (key : string) (d : list (string * V)) : option V :=
  match d with
  | [] => None
  | (k, v) :: rest => if String.eqb k key then Some v else dict_get key rest
  end.

Definition dict_mem {V : Type} (key : string) (d : list (string * V)) : bool :=
  match dict_get key d with
  | Some _ => true
  | None => false
  end.

(** [bool(row["ZFAVORITE"])]. *)
Definition int_truthy (x : option Z) : bool :=
  match x with
  | Some n => negb (Z.eqb n 0)
  | None => false
  end.

(** Lines 314-316: the key of a store row. *)
Definition metadata_key (directory filename : string) : string :=
  normalize_rel_path (truncate_to_apple_path (build_relative_path directory filename)).

Definition row_meta (row : ResultRow) : PhotoMeta :=
  let filename_db := PyStr.or_empty (row_ZFILENAME row) in
  let directory := PyStr.or_empty (row_ZDIRECTORY row) in
  mkPhotoMeta
    (truncate_to_apple_path (build_relative_path directory filename_db))
    (int_truthy (row_ZFAVORITE row))
    (PyStr.strip (PyStr.or_empty (row_DESCRIPTION row))).

(** One turn of the loop over the rows: the dictionary and the count of
    duplicates. *)
Definition add_row (acc : list (string * PhotoMeta) * nat) (row : ResultRow)
    : list (string * PhotoMeta) * nat :=
  let '(metadata, duplicates) := acc in
  let normalized :=
    metadata_key (PyStr.or_empty (row_ZDIRECTORY row)) (PyStr.or_empty (row_ZFILENAME row)) in
  if dict_mem normalized metadata then (metadata, S duplicates)
  else (metadata ++ [(normalized, row_meta row)], duplicates).

Definition read_database_metadata (db : Store) : list (string * PhotoMeta) :=
  match query_rows db with
  | None => []
  | Some rows => fst (fold_left add_row rows ([], 0))
  end.

(** ** File scanner *)

(** One step of [os.walk(base_path)]: the directory, as the components of
    [root_path.relative_to(base_path)], and the names of its files. *)
Record WalkEntry : Type := mkWalk {
  walk_dir : list string;
  walk_files : list string
}.

(** Lines 460-461: the key of a file found in directory [dir] under the
    scan root: [(root_path / file_name).relative_to(base_path)] has the
    components of [dir] followed by those of the file name. *)
Definition scanned_rel_path (dir : list string) (file_name : string) : string :=
  PurePath.as_posix
    (PurePath.joinpath (PurePath.mk "" dir) (PurePath.parse file_name)).

Definition file_key (dir : list string) (file_name : string) : string :=
  normalize_rel_path (scanned_rel_path dir file_name).

Definition scan_file (base : PurePath.t) (dir : list string)
    (photo_files : list (string * FileRecord)) (file_name : string)
    : list (string * FileRecord) :=
  let ext := PyStr.lower (PurePath.suffix (PurePath.parse file_name)) in
  if negb (existsb (String.eqb ext) SUPPORTED_EXTENSIONS) then photo_files
  else
    let rel := scanned_rel_path dir file_name in
    let normalized := normalize_rel_path rel in
    if dict_mem normalized photo_files then photo_files
    else
      photo_files
      ++ [(normalized,
           mkFileRecord rel
             (PurePath.as_posix
                (PurePath.joinpath
                   (PurePath.joinpath base (PurePath.mk "" dir))
                   (PurePath.parse file_name))))].

Definition scan_entry (base : PurePath.t) (photo_files : list (string * FileRecord))
    (entry : WalkEntry) : list (string * FileRecord) :=
  let path_parts := filter PyStr.truthy (walk_dir entry) in
  if existsb is_apple_part path_parts
  then fold_left (scan_file base (walk_dir entry)) (walk_files entry) photo_files
  else photo_files.

(** [scan_photo_files]: [exists] tells whether the scan root is there and
    [walk] is what [os.walk] yields under it.  The flag [apple_dir_found]
    of the program only selects a warning. *)
Definition scan_photo_files (photo_dir : string) (exists_ : bool)
    (walk : list WalkEntry) : list (string * FileRecord) :=
  if negb exists_ then []
  else fold_left (scan_entry (PurePath.parse photo_dir)) walk [].

(** ** Matcher *)

Definition match_metadata (metadata : list (string * PhotoMeta))
    (photo_files : list (string * FileRecord)) : list MatchedPhoto * nat :=
  fold_left
    (fun acc km =>
       let '(matched, missing_files) := acc in
       match dict_get (fst km) photo_files with
       | None => (matched, S missing_files)
       | Some file_record => (matched ++ [mkMatchedPhoto file_record (snd km)], missing_files)
       end)
    metadata ([], 0).

(** ** Conflict-resolving merger *)

(** The three answers of [prompt_conflict]. *)
Inductive Decision : Type :=
| Overwrite   (* "overwrite" *)
| Skip        (* "skip" *)
| SkipAll.    (* "skip_all" *)

(** The external collaborators, over a world they may change:
    [read_exif_data], that is exiftool run on a file and its output parsed
    ([None]: an [ExifToolError]); [run_exiftool] with the arguments of a
    write ([false]: an [ExifToolError]); and [prompt_conflict], the console
    prompt repeated until it gets one of its three answers.  An exception
    of another class ends the run and is outside the embedding. *)
Class Collaborators (World : Type) : Type := {
  read_exif_data : World -> string -> World * option ExifData;
  run_exiftool_write : World -> list string -> World * bool;
  prompt_conflict : World -> string -> ExifData -> PhotoMeta -> World * Decision
}.

(** The calls made to the collaborators, in order (ghost state). *)
Inductive Event : Type :=
| EvRead (file_path : string)
| EvPrompt (rel : string) (answer : Decision)
| EvWrite (cmd_args : list string).

Definition is_write (e : Event) : bool :=
  match e with
  | EvWrite _ => true
  | _ => false
  end.

Definition is_prompt (e : Event) : bool :=
  match e with
  | EvPrompt _ _ => true
  | _ => false
  end.

Record Args : Type := mkArgs {
  photo_dir : string;
  dry_run : bool;
  overwrite_original : bool
}.

(** The state the loop of [run_migration] carries: the three counters of
    [stats], the flag [skip_all_conflicts], the world, and the trace. *)
Record Session (World : Type) : Type := mkSession {
  processed : nat;
  skipped : nat;
  errors : nat;
  skip_all_conflicts : bool;
  world : World;
  trace : list Event
}.

Arguments mkSession {World}.
Arguments processed {World}.
Arguments skipped {World}.
Arguments errors {World}.
Arguments skip_all_conflicts {World}.
Arguments world {World}.
Arguments trace {World}.

Definition needs_rating (m : PhotoMeta) (existing : ExifData) : bool :=
  favorite m
  && match rating existing with
     | None => true
     | Some r => (r <? 4)%Z
     end.

Definition needs_description (m : PhotoMeta) (existing : ExifData) : bool :=
  PyStr.truthy (description m)
  && negb (String.eqb (description m) (PyStr.or_empty (exif_description existing))).

Definition evaluate_conflict (existing : ExifData)
    (needs_rating needs_description : bool) : bool :=
  let rating_conflict :=
    needs_rating
    && match rating existing with
       | None => false
       | Some r => negb (r =? 4)%Z
       end in
  let description_conflict :=
    needs_description && PyStr.truthy (PyStr.or_empty (exif_description existing)) in
  rating_conflict || description_conflict.

Definition build_write_cmd_args (file_path : string) (rating : option Z)
    (description : option string) (overwrite_original : bool)
    : option (list string) :=
  let updates :=
    match rating with
    | Some r => [("-Rating=" ++ PyStr.of_Z r)%string]
    | None => []
    end
    ++ match description with
       | Some d => [("-ImageDescription=" ++ d)%string; ("-Description=" ++ d)%string]
       | None => []
       end in
  match updates with
  | [] => None
  | _ =>
      Some ((if overwrite_original then ["-overwrite_original"] else [])
            ++ updates ++ [file_path])
  end.

Section Merger.

Context {World : Type} {C : Collaborators World}.

(** [write_exif_data] under the [try] of [run_migration]: the world after
    the call, whether it succeeded, and the call it made if any. *)
Definition write_exif_data (w : World) (file_path : string) (rating : option Z)
    (description : option string) (overwrite_original : bool)
    : World * bool * list Event :=
  match rating, description with
  | None, None => (w, true, [])
  | _, _ =>
      match build_write_cmd_args file_path rating description overwrite_original with
      | None => (w, true, [])
      | Some cmd_args =>
          let '(w', ok) := run_exiftool_write w cmd_args in
          (w', ok, [EvWrite cmd_args])
      end
  end.

Definition count_processed (s : Session World) (w : World) (evs : list Event) : Session World :=
  mkSession (S (processed s)) (skipped s) (errors s) (skip_all_conflicts s) w (trace s ++ evs).

Definition count_skipped (s : Session World) (w : World) (evs : list Event) : Session World :=
  mkSession (processed s) (S (skipped s)) (errors s) (skip_all_conflicts s) w (trace s ++ evs).

Definition count_error (s : Session World) (w : World) (evs : list Event) : Session World :=
  mkSession (processed s) (skipped s) (S (errors s)) (skip_all_conflicts s) w (trace s ++ evs).

Definition set_skip_all (s : Session World) : Session World :=
  mkSession (processed s) (skipped s) (errors s) true (world s) (trace s).

(** Lines 559-594: the write step, behind the conflict policy. *)
Definition apply_change (args : Args) (s : Session World) (w : World)
    (evs : list Event) (entry : MatchedPhoto) (needs_r needs_d : bool)
    : Session World :=
  let action_rating := if needs_r then Some 4%Z else None in
  let action_description := if needs_d then Some (description (meta entry)) else None in
  if dry_run args then count_processed s w evs
  else
    let '(w', success, wevs) :=
      write_exif_data w (full_path (record entry)) action_rating action_description
        (overwrite_original args) in
    if success then count_processed s w' (evs ++ wevs)
    else count_error s w' (evs ++ wevs).

(** One turn of the loop of [run_migration]. *)
Definition migrate_entry (args : Args) (s : Session World) (entry : MatchedPhoto)
    : Session World :=
  let rel := rel_path (record entry) in
  let m := meta entry in
  let full := full_path (record entry) in
  if negb (favorite m) && negb (PyStr.truthy (description m))
  then count_skipped s (world s) []
  else
    match read_exif_data (world s) full with
    | (w1, None) => count_error s w1 [EvRead full]
    | (w1, Some existing) =>
        let needs_r := needs_rating m existing in
        let needs_d := needs_description m existing in
        if negb needs_r && negb needs_d then count_skipped s w1 [EvRead full]
        else if evaluate_conflict existing needs_r needs_d then
          if skip_all_conflicts s then count_skipped s w1 [EvRead full]
          else
            match prompt_conflict w1 rel existing m with
            | (w2, Skip) => count_skipped s w2 [EvRead full; EvPrompt rel Skip]
            | (w2, SkipAll) =>
                count_skipped (set_skip_all s) w2 [EvRead full; EvPrompt rel SkipAll]
            | (w2, Overwrite) =>
                apply_change args s w2 [EvRead full; EvPrompt rel Overwrite]
                  entry needs_r needs_d
            end
        else apply_change args s w1 [EvRead full] entry needs_r needs_d
    end.

(** The loop from a given state, and [run_migration] from the initial one. *)
Definition migrate_from (args : Args) (s : Session World)
    (matched : list MatchedPhoto) : Session World :=
  fold_left (migrate_entry args) matched s.

Definition run_migration (args : Args) (w : World) (matched : list MatchedPhoto)
    : Session World :=
  migrate_from args (mkSession 0 0 0 false w []) matched.

End Merger.

(** ** Control flow of [main] *)

(** The phases [main] announces, in order. *)
Inductive Phase : Type :=
| PhaseDependencies
| PhaseValidate
| PhaseRead
| PhaseScan
| PhaseMatch
| PhaseMigrate (n : nat)
| PhaseComplete.

(** How a run ends: the status given to [sys.exit], the phases it went
    through, and the state of the merge loop (the initial one when the loop
    was not entered). *)
Record Outcome (World : Type) : Type := mkOutcome {
  exit_code : Z;
  phases : list Phase;
  final : Session World
}.

Arguments mkOutcome {World}.
Arguments exit_code {World}.
Arguments phases {World}.
Arguments final {World}.

(** [validate_database]: the file is there ([Some]), listing its tables
    raises no [sqlite3.Error], and ZASSET is one of them. *)
Definition validate_database (db : option Store) : bool :=
  match db with
  | None => false
  | Some d => if fault_on_validate d then false else has_table "ZASSET" (tables d)
  end.

Section Main.

Context {World : Type} {C : Collaborators World}.

(** [main] after the parsing and cleaning of its arguments, logging left
    out: [exiftool_found] is the outcome of [check_dependencies], [db] the
    database file ([None]: no such file), [dir_exists] and [walk] the scan
    root as the file system shows it. *)
Definition main (exiftool_found : bool) (args : Args) (db : option Store)
    (dir_exists : bool) (walk : list WalkEntry) (w : World) : Outcome World :=
  let idle := mkSession 0 0 0 false w [] in
  if negb exiftool_found
  then mkOutcome EXIT_EXIFTOOL_MISSING [PhaseDependencies] idle
  else if negb (validate_database db)
  then mkOutcome EXIT_INVALID_DB [PhaseDependencies; PhaseValidate] idle
  else
    let metadata :=
      match db with
      | Some d => read_database_metadata d
      | None => []
      end in
    let photo_files := scan_photo_files (photo_dir args) dir_exists walk in
    match photo_files with
    | [] =>
        mkOutcome EXIT_NO_PHOTOS
          [PhaseDependencies; PhaseValidate; PhaseRead; PhaseScan] idle
    | _ =>
        let matched := fst (match_metadata metadata photo_files) in
        match matched with
        | [] =>
            mkOutcome EXIT_SUCCESS
              [PhaseDependencies; PhaseValidate; PhaseRead; PhaseScan; PhaseMatch] idle
        | _ =>
            let stats := run_migration args w matched in
            mkOutcome
              (if Nat.eqb (errors stats) 0 then EXIT_SUCCESS else EXIT_GENERAL_ERROR)
              [PhaseDependencies; PhaseValidate; PhaseRead; PhaseScan; PhaseMatch;
               PhaseMigrate (List.length matched); PhaseComplete]
              stats
        end
    end.

End Main.

(** ** The normaliser as the specification words it

    The second definition used to compare the specification's wording with
    [truncate_to_apple_path]: the rightmost marker segment is located and
    the path is cut before it. *)

Fixpoint spec_keep_from_rightmost (parts : list string) : option (list string) :=
  match parts with
  | [] => None
  | part :: rest =>
      match spec_keep_from_rightmost rest with
      | Some kept => Some kept
      | None => if is_apple_part part then Some parts else None
      end
  end.

Definition spec_normalize_path (path_str : string) : string :=
  match spec_keep_from_rightmost (PyStr.split "/" path_str) with
  | Some kept => PyStr.lower (PyStr.join "/" kept)
  | None => PyStr.lower path_str
  end.



(** The three detections of [build_metadata_query]. *)
Definition title_detected (tables : Schema) : bool :=
  has_table "ZADDITIONALASSETATTRIBUTES" tables
  && has_column "ZTITLE" (columns_of tables "ZADDITIONALASSETATTRIBUTES").

Definition long_detected (tables : Schema) : bool :=
  has_table "ZASSETDESCRIPTION" tables
  && has_table "ZADDITIONALASSETATTRIBUTES" tables
  && has_column "ZLONGDESCRIPTION" (columns_of tables "ZASSETDESCRIPTION").

Definition caption_detected (tables : Schema) : bool :=
  has_table "ZEXTENDEDATTRIBUTES" tables
  && has_column "ZCAPTION" (columns_of tables "ZEXTENDEDATTRIBUTES").

(** The inclusion predicate of the specification on a row of the store:
    not trashed, and marked favorite or with a non-empty resolved
    description. *)
Definition spec_included (plan : QueryPlan) (row : JoinedRow) : Prop :=
  ZTRASHEDSTATE (j_asset row) = Some 0%Z
  /\ (ZFAVORITE (j_asset row) = Some 1%Z
      \/ exists d, desc_value plan row = Some d /\ d <> "").

(** ** A scripted collaborator

    A concrete world on which the embedding runs: the embedded metadata of
    each file (a file that is not listed makes exiftool fail), the answers
    the prompt will give, in order ([Skip] once they are used up), and
    whether exiftool's writes fail. *)

Record Script : Type := mkScript {
  embedded : list (string * ExifData);
  answers : list Decision;
  writes_fail : bool
}.

#[export] Instance scripted : Collaborators Script := {
  read_exif_data w file_path := (w, dict_get file_path (embedded w));
  run_exiftool_write w _ := (w, negb (writes_fail w));
  prompt_conflict w _ _ _ :=
    match answers w with
    | [] => (w, Skip)
    | a :: rest => (mkScript (embedded w) rest (writes_fail w), a)
    end
}.

(** ** Vocabulary of the properties *)


(** The calls a turn of the loop adds to the trace. *)
Definition step_events {World : Type} {C : Collaborators World}
    (args : Args) (s : Session World) (entry : MatchedPhoto) : list Event :=
  skipn (List.length (trace s)) (trace (migrate_entry args s entry)).

(** Exactly one of the three counters went up by one. *)
Definition one_counter_incremented {World : Type} (s s' : Session World) : Prop :=
  (processed s' = S (processed s) /\ skipped s' = skipped s /\ errors s' = errors s)
  \/ (processed s' = processed s /\ skipped s' = S (skipped s) /\ errors s' = errors s)
  \/ (processed s' = processed s /\ skipped s' = skipped s /\ errors s' = S (errors s)).

(** The same arguments with the dry-run flag cleared. *)
Definition live (args : Args) : Args :=
  mkArgs (photo_dir args) false (overwrite_original args).

(** Case analysis on every test of a turn of the loop. *)
Ltac split_step :=
  repeat match goal with
         | |- context [match ?x with _ => _ end] =>
             match x with
             | context [match _ with _ => _ end] => fail 1
             | _ => let E := fresh "E" in destruct x eqn:E
             end
         end.

Ltac open_step :=
  unfold migrate_entry, apply_change, write_exif_data, build_write_cmd_args,
    count_processed, count_skipped, count_error, set_skip_all.


(** No prompt follows a skip-all answer in a trace. *)
Definition sticky (t : list Event) : Prop :=
  forall pre rel post,
    t = pre ++ EvPrompt rel SkipAll :: post -> existsb is_prompt post = false.

Definition no_skip_all (t : list Event) : Prop :=
  forall rel, ~ In (EvPrompt rel SkipAll) t.

(** The invariant of the loop: the trace is sticky, and it holds no
    skip-all answer as long as the flag is down. *)
Definition sticky_invariant {World : Type} (s : Session World) : Prop :=
  sticky (trace s) /\ (skip_all_conflicts s = false -> no_skip_all (trace s)).

Definition not_write (e : Event) : bool := negb (is_write e).

(** A string without the separator. *)
Definition sep_free (sep : ascii) (s : string) : bool :=
  PyStr.all_chars (fun c => negb (Ascii.eqb c sep)) s.

(** ** Worked data

    A store in the newer schema generation with one favorite asset filed
    under DCIM/100APPLE, the same store made unreadable, a store with no
    asset, and two scans of a copy of the phone: one from the folder that
    holds 100APPLE, one from the folder that holds DCIM. *)

Definition ios18_schema : Schema :=
  [("ZASSET",
    ["Z_PK"; "ZFILENAME"; "ZDIRECTORY"; "ZFAVORITE"; "ZTRASHEDSTATE";
     "ZADDITIONALATTRIBUTES"]);
   ("ZADDITIONALASSETATTRIBUTES", ["Z_PK"; "ZTITLE"; "ZASSETDESCRIPTION"]);
   ("ZASSETDESCRIPTION", ["Z_PK"; "ZLONGDESCRIPTION"])].

Definition favorite_asset : AssetRow :=
  mkAsset (Some 1%Z) (Some "IMG_0001.JPG") (Some "DCIM/100APPLE")
    (Some 1%Z) (Some 0%Z) (Some 1%Z).

Definition dcim_store : Store :=
  mkStore ios18_schema [favorite_asset]
    [mkAttributes (Some 1%Z) None None None] [] [] false false.

Definition locked_store : Store :=
  mkStore ios18_schema [favorite_asset]
    [mkAttributes (Some 1%Z) None None None] [] [] false true.

Definition empty_store : Store :=
  mkStore ios18_schema [] [] [] [] false false.

Definition walk_below_dcim : list WalkEntry :=
  [mkWalk [] []; mkWalk ["100APPLE"] ["IMG_0001.JPG"]].

Definition walk_above_dcim : list WalkEntry :=
  [mkWalk [] []; mkWalk ["DCIM"] []; mkWalk ["DCIM"; "100APPLE"] ["IMG_0001.JPG"]].

Definition unrated_world : Script :=
  mkScript [("/backup/100APPLE/IMG_0001.JPG", mkExifData None None)] [] false.

Definition live_args : Args := mkArgs "/backup" false false.
Definition dry_args : Args := mkArgs "/backup" true false.

(** Three matched pairs: a favorite with no embedded rating, a described
    photo whose file already carries the description, and a favorite whose
    file carries the rating 2. *)
Definition unrated_pair : MatchedPhoto :=
  mkMatchedPhoto
    (mkFileRecord "100APPLE/IMG_0001.JPG" "/backup/100APPLE/IMG_0001.JPG")
    (mkPhotoMeta "100APPLE/IMG_0001.JPG" true "").

Definition sunset_pair : MatchedPhoto :=
  mkMatchedPhoto
    (mkFileRecord "101APPLE/IMG_0002.HEIC" "/backup/101APPLE/IMG_0002.HEIC")
    (mkPhotoMeta "101APPLE/IMG_0002.HEIC" false "Sunset").

Definition rated_pair : MatchedPhoto :=
  mkMatchedPhoto
    (mkFileRecord "102APPLE/IMG_0003.JPG" "/backup/102APPLE/IMG_0003.JPG")
    (mkPhotoMeta "102APPLE/IMG_0003.JPG" true "").

Definition sunset_exif : ExifData := mkExifData None (Some "Sunset").
Definition rated_exif : ExifData := mkExifData (Some 2%Z) None.

(** A world holding the three files, with the given answers to come. *)
Definition backup_world (answers : list Decision) : Script :=
  mkScript
    [("/backup/100APPLE/IMG_0001.JPG", mkExifData None None);
     ("/backup/101APPLE/IMG_0002.HEIC", sunset_exif);
     ("/backup/102APPLE/IMG_0003.JPG", rated_exif)]
    answers false.

Definition fresh_session (w : Script) : Session Script :=
  mkSession 0 0 0 false w [].

Definition flagged_session (w : Script) : Session Script :=
  mkSession 0 1 0 true w
    [EvRead "/backup/102APPLE/IMG_0003.JPG"; EvPrompt "102APPLE/IMG_0003.JPG" SkipAll].

(** A path component as a directory listing gives it: not empty, not a
    single dot, and free of both separators. *)
Definition plain_name (s : string) : bool :=
  PurePath.kept_name s && sep_free "/" s && sep_free "\" s.

(** A store whose only asset is no favorite and has a title made of two
    blanks, and a schema in which the description table is there but
    neither table carries the column that links it to the attributes. *)
Definition blank_title_store : Store :=
  mkStore ios18_schema
    [mkAsset (Some 1%Z) (Some "IMG_0004.JPG") (Some "DCIM/100APPLE")
       (Some 0%Z) (Some 0%Z) (Some 1%Z)]
    [mkAttributes (Some 1%Z) None (Some "  ") None] [] [] false false.

Definition unlinked_schema : Schema :=
  [("ZASSET",
    ["Z_PK"; "ZFILENAME"; "ZDIRECTORY"; "ZFAVORITE"; "ZTRASHEDSTATE"]);
   ("ZADDITIONALASSETATTRIBUTES", ["Z_PK"; "ZASSET"; "ZTITLE"]);
   ("ZASSETDESCRIPTION", ["Z_PK"; "ZLONGDESCRIPTION"])].

Definition unlinked_store : Store :=
  mkStore unlinked_schema [favorite_asset] [] [] [] false false.

(* ================================================================== *)
(** * Part I, continued: the rest of the program                       *)
(* ================================================================== *)

(** ** Cleaning of the command-line arguments *)

Module PyStrip.

(** [s.strip(chars)] for the characters [p] accepts. *)
Fixpoint lstrip_with (p : ascii -> bool) (s : string) : string :=
  match s with
  | EmptyString => EmptyString
  | String c s' => if p c then lstrip_with p s' else s
  end.

Fixpoint rstrip_with (p : ascii -> bool) (s : string) : string :=
  match s with
  | EmptyString => EmptyString
  | String c s' =>
      match rstrip_with p s' with
      | EmptyString => if p c then EmptyString else String c EmptyString
      | r => String c r
      end
  end.

Definition strip_with (p : ascii -> bool) (s : string) : string :=
  rstrip_with p (lstrip_with p s).

End PyStrip.

(** The double quote, character 34. *)
Definition dquote : ascii := "034"%char.

Definition strip_arg_quotes (value : string) : string :=
  PyStrip.strip_with (Ascii.eqb dquote) (PyStr.strip value).

(** The loop over the two flags, left at the first one the value ends
    with. *)
Definition cleanup_path_arg (value : string) : string * bool :=
  let cleaned := strip_arg_quotes value in
  if PyStr.endswith cleaned " -v"
  then (PyStr.strip (PyStr.drop_last 3 cleaned), true)
  else if PyStr.endswith cleaned " --verbose"
  then (PyStr.strip (PyStr.drop_last 10 cleaned), true)
  else (PyStr.strip cleaned, false).

(** ** The answer of the console prompt *)

(** The loop of [prompt_conflict] over the lines typed at the prompt:
    the decision and the lines left, or [None] when the lines run out
    before one of y, n, s is typed. *)
Fixpoint prompt_answer (typed : list string) : option (Decision * list string) :=
  match typed with
  | [] => None
  | line :: rest =>
      let response := PyStr.lower (PyStr.strip line) in
      if String.eqb response "y" then Some (Overwrite, rest)
      else if String.eqb response "s" then Some (SkipAll, rest)
      else if String.eqb response "n" then Some (Skip, rest)
      else prompt_answer rest
  end.

(** ** The output of exiftool *)

(** [int(value)] on a stripped ASCII string: an optional sign, then
    decimal digits, single underscores allowed between digits. *)
Definition digit_value (c : ascii) : Z := Z.of_nat (nat_of_ascii c - 48).

(** The digits after the first: [after_digit] tells whether the previous
    character was a digit, which an underscore and the end require. *)
Fixpoint int_digits (acc : Z) (after_digit : bool) (s : string) : option Z :=
  match s with
  | EmptyString => if after_digit then Some acc else None
  | String c s' =>
      if PyStr.char_isdigit c then int_digits (acc * 10 + digit_value c) true s'
      else if Ascii.eqb c "_" then
        if after_digit then int_digits acc false s' else None
      else None
  end.

Definition int_unsigned (s : string) : option Z :=
  match s with
  | String c _ => if PyStr.char_isdigit c then int_digits 0 false s else None
  | EmptyString => None
  end.

Definition py_int (value : string) : option Z :=
  match PyStr.strip value with
  | String "-" s => option_map Z.opp (int_unsigned s)
  | String "+" s => int_unsigned s
  | s => int_unsigned s
  end.

(** [line.partition(":")]: the text before the first colon and the text
    after it, both the whole line and the empty string without a colon. *)
Fixpoint partition_colon (line : string) : string * string :=
  match line with
  | EmptyString => (EmptyString, EmptyString)
  | String c s =>
      if Ascii.eqb c ":" then (EmptyString, s)
      else let '(k, v) := partition_colon s in (String c k, v)
  end.

(** One turn of the loop of [read_exif_data] over the lines of the
    output. *)
Definition read_exif_line (acc : ExifData) (raw_line : string) : ExifData :=
  let line := PyStr.strip raw_line in
  if String.eqb line "" then acc
  else
    let '(k, v) := partition_colon line in
    let key := PyStr.lower (PyStr.strip k) in
    let value := PyStr.strip v in
    if String.eqb key "rating" then
      match py_int value with
      | Some r => mkExifData (Some r) (exif_description acc)
      | None => acc
      end
    else if String.eqb key "imagedescription" || String.eqb key "description" then
      if PyStr.truthy value then mkExifData (rating acc) (Some value) else acc
    else acc.

(** [read_exif_data] after the run of exiftool: [lines] is
    [result.stdout.splitlines()]. *)
Definition parse_exif_output (lines : list string) : ExifData :=
  fold_left read_exif_line lines (mkExifData None None).

(** ** Vocabulary of the further properties *)

Definition first_char (s : string) : option ascii :=
  match s with
  | EmptyString => None
  | String c _ => Some c
  end.

Fixpoint last_char (s : string) : option ascii :=
  match s with
  | EmptyString => None
  | String c EmptyString => Some c
  | String _ s' => last_char s'
  end.

(** Neither the first nor the last character is a blank. *)
Definition no_outer_blank (s : string) : Prop :=
  (forall c, first_char s = Some c -> PyStr.char_isspace c = false)
  /\ (forall c, last_char s = Some c -> PyStr.char_isspace c = false).

(** The dictionary and the count of duplicates that
    [read_database_metadata] builds from the rows and logs. *)
Definition load_rows (rows : list ResultRow) : list (string * PhotoMeta) * nat :=
  fold_left add_row rows ([], 0).

Definition row_key (row : ResultRow) : string :=
  metadata_key (PyStr.or_empty (row_ZDIRECTORY row)) (PyStr.or_empty (row_ZFILENAME row)).

(** A file the scan takes: under a directory one of whose components is a
    marker, with a supported extension in any letter case. *)
Definition eligible (dir : list string) (file_name : string) : bool :=
  existsb is_apple_part (filter PyStr.truthy dir)
  && existsb (String.eqb (PyStr.lower (PurePath.suffix (PurePath.parse file_name))))
       SUPPORTED_EXTENSIONS.

Definition supported (file_name : string) : bool :=
  existsb (String.eqb (PyStr.lower (PurePath.suffix (PurePath.parse file_name))))
    SUPPORTED_EXTENSIONS.

(** The record [scan_file] builds for a file. *)
Definition scanned_record (base : PurePath.t) (dir : list string) (file_name : string)
    : FileRecord :=
  mkFileRecord (scanned_rel_path dir file_name)
    (PurePath.as_posix
       (PurePath.joinpath (PurePath.joinpath base (PurePath.mk "" dir))
          (PurePath.parse file_name))).

(** One turn of the loop of [match_metadata]. *)
Definition match_step (photo_files : list (string * FileRecord))
    (acc : list MatchedPhoto * nat) (km : string * PhotoMeta)
    : list MatchedPhoto * nat :=
  let '(matched, missing_files) := acc in
  match dict_get (fst km) photo_files with
  | None => (matched, S missing_files)
  | Some file_record => (matched ++ [mkMatchedPhoto file_record (snd km)], missing_files)
  end.

(** A join of the attributes table, and of the description table. *)
Definition is_attrs_join (j : Join) : bool :=
  match j with
  | JoinAttrsForward | JoinAttrsBackward => true
  | _ => false
  end.

Definition is_desc_join (j : Join) : bool :=
  match j with
  | JoinDescForward | JoinDescBackward => true
  | _ => false
  end.

(** One of the two columns that link the description table to the
    attributes table is there. *)
Definition description_linked (tables : Schema) : bool :=
  has_column "ZASSETDESCRIPTION" (columns_of tables "ZADDITIONALASSETATTRIBUTES")
  || has_column "ZASSETATTRIBUTES" (columns_of tables "ZASSETDESCRIPTION").

(** The answer a typed line stands for, if any. *)
Definition answer_of (line : string) : option Decision :=
  let response := PyStr.lower (PyStr.strip line) in
  if String.eqb response "y" then Some Overwrite
  else if String.eqb response "s" then Some SkipAll
  else if String.eqb response "n" then Some Skip
  else None.

(** What a line of exiftool's output says of the rating and of the
    description, if anything. *)
Definition line_key_value (raw_line : string) : string * string :=
  let '(k, v) := partition_colon (PyStr.strip raw_line) in
  (PyStr.lower (PyStr.strip k), PyStr.strip v).

Definition line_rating (raw_line : string) : option Z :=
  if String.eqb (fst (line_key_value raw_line)) "rating"
  then py_int (snd (line_key_value raw_line))
  else None.

Definition line_description (raw_line : string) : option string :=
  if (String.eqb (fst (line_key_value raw_line)) "imagedescription"
      || String.eqb (fst (line_key_value raw_line)) "description")
     && PyStr.truthy (snd (line_key_value raw_line))
  then Some (snd (line_key_value raw_line))
  else None.

(** The last value among those given. *)
Fixpoint last_some {A : Type} (xs : list (option A)) (default : option A) : option A :=
  match xs with
  | [] => default
  | Some a :: rest => last_some rest (Some a)
  | None :: rest => last_some rest default
  end.

(** The embedded metadata of a file after the write step has written what
    a record needs: the rating 4 and the record's description, each only
    when needed. *)
Definition written_exif (m : PhotoMeta) (existing : ExifData) : ExifData :=
  mkExifData
    (if needs_rating m existing then Some 4%Z else rating existing)
    (if needs_description m existing then Some (description m)
     else exif_description existing).

(** A store with two rows of one key, the first a favorite, the second
    titled. *)
Definition twin_store : Store :=
  mkStore ios18_schema
    [favorite_asset;
     mkAsset (Some 2%Z) (Some "img_0001.jpg") (Some "dcim/100apple")
       (Some 0%Z) (Some 0%Z) (Some 2%Z)]
    [mkAttributes (Some 1%Z) None None None;
     mkAttributes (Some 2%Z) None (Some "Harbour") None] [] [] false false.

Definition favorite_row : ResultRow :=
  mkRow (Some "IMG_0001.JPG") (Some "DCIM/100APPLE") (Some 1%Z) (Some "").

Definition titled_row : ResultRow :=
  mkRow (Some "img_0001.jpg") (Some "dcim/100apple") (Some 0%Z) (Some "Harbour").

(** ** ASCII text

    The text on which the character classes of [PyStr] are Python's. *)

Definition is_ascii (s : string) : bool := PyStr.all_chars PyStr.char_is_ascii s.

Definition ascii_text (x : option string) : bool :=
  match x with
  | Some s => is_ascii s
  | None => true
  end.

(** Every text of the four tables is ASCII. *)
Definition ascii_store (db : Store) : bool :=
  forallb (fun a => ascii_text (ZFILENAME a) && ascii_text (ZDIRECTORY a)) (ZASSET db)
  && forallb (fun r => ascii_text (aaa_ZTITLE r)) (ZADDITIONALASSETATTRIBUTES db)
  && forallb (fun r => ascii_text (ad_ZLONGDESCRIPTION r)) (ZASSETDESCRIPTION db)
  && forallb (fun r => ascii_text (ext_ZCAPTION r)) (ZEXTENDEDATTRIBUTES db).








(* ================================================================== *)
(** * Part II: properties                                              *)
(* ================================================================== *)

(** ** The merge loop *)

Section MergerProperties.

Context {World : Type} {C : Collaborators World}.

Lemma trace_extends (args : Args) (s : Session World) (e : MatchedPhoto) :
  exists evs, trace (migrate_entry args s e) = trace s ++ evs.
Proof.
  open_step. split_step; cbn [trace]; eexists; reflexivity.
Qed.

Lemma trace_step (args : Args) (s : Session World) (e : MatchedPhoto) :
  trace (migrate_entry args s e) = trace s ++ step_events args s e.
Proof.
  unfold step_events. destruct (trace_extends args s e) as [evs H].
  rewrite H. f_equal.
  rewrite skipn_app, Nat.sub_diag, skipn_all. reflexivity.
Qed.

Lemma step_events_eq (args : Args) (s : Session World) (e : MatchedPhoto) evs :
  trace (migrate_entry args s e) = trace s ++ evs -> step_events args s e = evs.
Proof.
  intros H. unfold step_events. rewrite H.
  rewrite skipn_app, Nat.sub_diag, skipn_all. reflexivity.
Qed.

Lemma migrate_entry_counts (args : Args) (s : Session World) (e : MatchedPhoto) :
  one_counter_incremented s (migrate_entry args s e).
Proof.
  unfold one_counter_incremented. open_step.
  split_step; cbn [processed skipped errors]; auto.
Qed.

Lemma migrate_from_sum (args : Args) (matched : list MatchedPhoto) :
  forall s : Session World,
    let s' := migrate_from args s matched in
    processed s' + skipped s' + errors s'
    = processed s + skipped s + errors s + List.length matched.
Proof.
  induction matched as [|e rest IH]; intros s; cbn.
  - lia.
  - unfold migrate_from in IH. rewrite IH.
    destruct (migrate_entry_counts args s e) as [H|[H|H]];
      destruct H as (Hp & Hk & He); rewrite Hp, Hk, He; lia.
Qed.

Lemma needs_rating_iff (m : PhotoMeta) (ex : ExifData) :
  needs_rating m ex = true
  <-> favorite m = true
      /\ (rating ex = None \/ exists r, rating ex = Some r /\ (r < 4)%Z).
Proof.
  unfold needs_rating. destruct (favorite m), (rating ex) as [r|]; cbn.
  - rewrite Z.ltb_lt. split.
    + intros H. split; [reflexivity|]. right. exists r. auto.
    + intros [_ [H|[r' [H H']]]]; [discriminate|]. injection H as ->. exact H'.
  - split; auto.
  - split; [discriminate|]. intros [H _]. discriminate.
  - split; [discriminate|]. intros [H _]. discriminate.
Qed.

Lemma truthy_iff (x : string) : PyStr.truthy x = true <-> x <> "".
Proof.
  unfold PyStr.truthy. rewrite negb_true_iff. apply String.eqb_neq.
Qed.

Lemma needs_description_iff (m : PhotoMeta) (ex : ExifData) :
  needs_description m ex = true
  <-> description m <> ""
      /\ description m <> PyStr.or_empty (exif_description ex).
Proof.
  unfold needs_description.
  rewrite andb_true_iff, truthy_iff, negb_true_iff, String.eqb_neq. reflexivity.
Qed.

Lemma evaluate_conflict_iff (ex : ExifData) (nr nd : bool) :
  evaluate_conflict ex nr nd = true
  <-> (nr = true /\ exists r, rating ex = Some r /\ r <> 4%Z)
      \/ (nd = true /\ exists d, exif_description ex = Some d /\ d <> "").
Proof.
  assert (A : match rating ex with
              | None => false
              | Some r => negb (r =? 4)%Z
              end = true <-> exists r, rating ex = Some r /\ r <> 4%Z).
  { destruct (rating ex) as [r|].
    - rewrite negb_true_iff, Z.eqb_neq. split.
      + intros H. exists r. auto.
      + intros [r' [H H']]. injection H as ->. exact H'.
    - split; [discriminate|]. intros [r [H _]]. discriminate. }
  assert (B : PyStr.truthy (PyStr.or_empty (exif_description ex)) = true
              <-> exists d, exif_description ex = Some d /\ d <> "").
  { rewrite truthy_iff. destruct (exif_description ex) as [d|]; cbn.
    - split.
      + intros H. exists d. auto.
      + intros [d' [H H']]. injection H as ->. exact H'.
    - split; [congruence|]. intros [d [H _]]. discriminate. }
  unfold evaluate_conflict.
  rewrite orb_true_iff, !andb_true_iff. tauto.
Qed.

(** The four ways a turn of the loop ends, as equations. *)

Lemma step_up_to_date (args : Args) (s : Session World) (e : MatchedPhoto) w1 ex :
  read_exif_data (world s) (full_path (record e)) = (w1, Some ex) ->
  needs_rating (meta e) ex = false ->
  needs_description (meta e) ex = false ->
  let s' := migrate_entry args s e in
  skipped s' = S (skipped s) /\ processed s' = processed s /\ errors s' = errors s
  /\ skip_all_conflicts s' = skip_all_conflicts s
  /\ existsb is_write (step_events args s e) = false.
Proof.
  intros Hread Hr Hd s'. subst s'.
  assert (H : exists w evs,
             migrate_entry args s e = count_skipped s w evs
             /\ existsb is_write evs = false).
  { unfold migrate_entry.
    destruct (negb (favorite (meta e)) && negb (PyStr.truthy (description (meta e)))).
    - exists (world s), []. auto.
    - rewrite Hread, Hr, Hd. cbn. exists w1, [EvRead (full_path (record e))]. auto. }
  destruct H as (w & evs & Heq & Hw).
  rewrite (step_events_eq args s e evs) by (rewrite Heq; reflexivity).
  rewrite Heq. cbn. auto.
Qed.

Lemma needs_exclude_empty_meta (m : PhotoMeta) (ex : ExifData) :
  needs_rating m ex || needs_description m ex = true ->
  negb (favorite m) && negb (PyStr.truthy (description m)) = false.
Proof.
  unfold needs_rating, needs_description.
  destruct (favorite m), (PyStr.truthy (description m)); cbn; congruence.
Qed.

Lemma step_sticky_skip (args : Args) (s : Session World) (e : MatchedPhoto) w1 ex :
  skip_all_conflicts s = true ->
  read_exif_data (world s) (full_path (record e)) = (w1, Some ex) ->
  needs_rating (meta e) ex || needs_description (meta e) ex = true ->
  evaluate_conflict ex (needs_rating (meta e) ex) (needs_description (meta e) ex) = true ->
  migrate_entry args s e = count_skipped s w1 [EvRead (full_path (record e))].
Proof.
  intros Hflag Hread Hneeds Hconf. unfold migrate_entry.
  rewrite (needs_exclude_empty_meta _ _ Hneeds), Hread.
  replace (negb (needs_rating (meta e) ex) && negb (needs_description (meta e) ex))
    with false
    by (destruct (needs_rating (meta e) ex), (needs_description (meta e) ex);
        cbn in *; congruence).
  rewrite Hconf, Hflag. reflexivity.
Qed.

Lemma step_conflict_write (args : Args) (s : Session World) (e : MatchedPhoto) w1 ex :
  read_exif_data (world s) (full_path (record e)) = (w1, Some ex) ->
  evaluate_conflict ex (needs_rating (meta e) ex) (needs_description (meta e) ex) = true ->
  existsb is_write (step_events args s e) = true ->
  dry_run args = false
  /\ skip_all_conflicts s = false
  /\ snd (prompt_conflict w1 (rel_path (record e)) ex (meta e)) = Overwrite
  /\ exists cmd_args,
       step_events args s e
       = [EvRead (full_path (record e));
          EvPrompt (rel_path (record e)) Overwrite;
          EvWrite cmd_args].
Proof.
  intros Hread Hconf Hw.
  assert (H : forall evs, trace (migrate_entry args s e) = trace s ++ evs ->
                          step_events args s e = evs)
    by (intros evs; apply step_events_eq).
  revert Hw H. open_step.
  destruct (negb (favorite (meta e)) && negb (PyStr.truthy (description (meta e)))).
  { intros Hw H. rewrite (H []) in Hw by reflexivity. discriminate. }
  rewrite Hread.
  destruct (negb (needs_rating (meta e) ex) && negb (needs_description (meta e) ex)).
  { intros Hw H. rewrite (H [EvRead (full_path (record e))]) in Hw by reflexivity.
    discriminate. }
  rewrite Hconf.
  destruct (skip_all_conflicts s).
  { intros Hw H. rewrite (H [EvRead (full_path (record e))]) in Hw by reflexivity.
    discriminate. }
  destruct (prompt_conflict w1 (rel_path (record e)) ex (meta e)) as [w2 [| |]].
  2,3: intros Hw H; erewrite H in Hw by reflexivity; discriminate.
  destruct (dry_run args).
  { intros Hw H. erewrite H in Hw by reflexivity. discriminate. }
  split_step; cbn [trace]; intros Hw H;
    try (erewrite H in Hw by reflexivity; discriminate);
    repeat split; eexists; apply H; reflexivity.
Qed.

(** What a turn of the loop does to the flag and which prompts it makes. *)
Lemma step_shape (args : Args) (s : Session World) (e : MatchedPhoto) :
  let s' := migrate_entry args s e in
  (skip_all_conflicts s = true ->
   skip_all_conflicts s' = true /\ existsb is_prompt (step_events args s e) = false)
  /\ (skip_all_conflicts s = false ->
      (skip_all_conflicts s' = false /\ no_skip_all (step_events args s e))
      \/ (skip_all_conflicts s' = true
          /\ exists evs rel,
               step_events args s e = evs ++ [EvPrompt rel SkipAll]
               /\ existsb is_prompt evs = false)).
Proof.
  cbv zeta.
  assert (H : forall evs, trace (migrate_entry args s e) = trace s ++ evs ->
                          step_events args s e = evs)
    by (intros evs; apply step_events_eq).
  revert H. open_step.
  destruct (skip_all_conflicts s) eqn:Hflag;
    split_step; cbn [trace skip_all_conflicts]; intros H;
    specialize (H _ eq_refl); rewrite H; rewrite ?Hflag;
    (split; intros Hf; try discriminate Hf; clear Hf);
    try (split; reflexivity);
    try (left; split; [reflexivity|];
         intros rel; cbn; intros Hin;
         repeat (destruct Hin as [Hin|Hin]; [discriminate|]); exact Hin).
  right. split; [reflexivity|].
  exists [EvRead (full_path (record e))], (rel_path (record e)). auto.
Qed.

Lemma app_eq_middle {A : Type} (l1 l2 pre post : list A) (x : A) :
  l1 ++ l2 = pre ++ x :: post ->
  (exists l, l1 = pre ++ x :: l /\ post = l ++ l2)
  \/ (exists l, pre = l1 ++ l /\ l2 = l ++ x :: post).
Proof.
  intros H. apply app_eq_app in H. destruct H as [l [[H1 H2]|[H1 H2]]].
  - destruct l as [|y l].
    + right. exists []. rewrite app_nil_r in H1. cbn in H2.
      split; [rewrite app_nil_r; symmetry; exact H1 | symmetry; exact H2].
    + cbn in H2. injection H2 as <- ->. left. exists l. split; [exact H1|reflexivity].
  - right. exists l. split; assumption.
Qed.

Lemma existsb_prompt_app (l1 l2 : list Event) :
  existsb is_prompt (l1 ++ l2) = false
  <-> existsb is_prompt l1 = false /\ existsb is_prompt l2 = false.
Proof. rewrite existsb_app. apply orb_false_iff. Qed.

Lemma prompt_free_not_in (l : list Event) rel d :
  existsb is_prompt l = false -> ~ In (EvPrompt rel d) l.
Proof.
  intros H Hin.
  assert (existsb is_prompt l = true)
    by (apply existsb_exists; exists (EvPrompt rel d); auto).
  congruence.
Qed.

Lemma sticky_invariant_step (args : Args) (s : Session World) (e : MatchedPhoto) :
  sticky_invariant s -> sticky_invariant (migrate_entry args s e).
Proof.
  intros [Hst Hno]. unfold sticky_invariant. rewrite trace_step.
  destruct (step_shape args s e) as [Hup Hdown].
  destruct (skip_all_conflicts s) eqn:Hflag.
  - destruct (Hup eq_refl) as [Hflag' Hfree]. split; [|congruence].
    intros pre rel post Heq. apply app_eq_middle in Heq.
    destruct Heq as [[l [H1 ->]]|[l [_ H2]]].
    + apply existsb_prompt_app. split; [eapply Hst; eauto | exact Hfree].
    + exfalso. eapply prompt_free_not_in; [exact Hfree|].
      rewrite H2. apply in_elt.
  - specialize (Hno eq_refl).
    destruct (Hdown eq_refl) as [[Hflag' Hnone]|[Hflag' (evs & rel' & Hevs & Hfree)]].
    + assert (Hall : no_skip_all (trace s ++ step_events args s e)).
      { intros rel Hin. apply in_app_or in Hin. destruct Hin; [eapply Hno|eapply Hnone]; eauto. }
      split; [|intros _; exact Hall].
      intros pre rel post Heq. exfalso. apply (Hall rel). rewrite Heq. apply in_elt.
    + split; [|congruence].
      intros pre rel post Heq. apply app_eq_middle in Heq.
      destruct Heq as [[l [H1 _]]|[l [_ H2]]].
      * exfalso. apply (Hno rel). rewrite H1. apply in_elt.
      * rewrite Hevs in H2. apply app_eq_middle in H2.
        destruct H2 as [[l' [H3 _]]|[l' [_ H4]]].
        -- exfalso. eapply prompt_free_not_in; [exact Hfree|].
           rewrite H3. apply in_elt.
        -- destruct l' as [|y l']; cbn in H4.
           ++ injection H4 as _ <-. reflexivity.
           ++ injection H4 as _ H4. destruct l'; discriminate.
Qed.

Lemma sticky_invariant_run (args : Args) (matched : list MatchedPhoto) :
  forall s : Session World,
    sticky_invariant s -> sticky_invariant (migrate_from args s matched).
Proof.
  induction matched as [|e rest IH]; intros s Hs; cbn.
  - exact Hs.
  - apply IH. apply sticky_invariant_step. exact Hs.
Qed.

Lemma flag_stays_up (args : Args) (matched : list MatchedPhoto) :
  forall s : Session World,
    skip_all_conflicts s = true ->
    skip_all_conflicts (migrate_from args s matched) = true
    /\ exists evs,
         trace (migrate_from args s matched) = trace s ++ evs
         /\ existsb is_prompt evs = false.
Proof.
  induction matched as [|e rest IH]; intros s Hs; cbn.
  - split; [exact Hs|]. exists []. rewrite app_nil_r. auto.
  - destruct (step_shape args s e) as [Hup _]. destruct (Hup Hs) as [Hs' Hfree].
    destruct (IH _ Hs') as [Hflag (evs & Htr & Hevs)].
    split; [exact Hflag|].
    exists (step_events args s e ++ evs). split.
    + unfold migrate_from in Htr. rewrite Htr, trace_step, app_assoc. reflexivity.
    + apply existsb_prompt_app. auto.
Qed.

Lemma skip_all_answer_sets_flag (args : Args) (s : Session World) (e : MatchedPhoto) rel :
  In (EvPrompt rel SkipAll) (step_events args s e) ->
  skip_all_conflicts (migrate_entry args s e) = true.
Proof.
  intros Hin. destruct (step_shape args s e) as [Hup Hdown].
  destruct (skip_all_conflicts s) eqn:Hflag.
  - apply Hup. reflexivity.
  - destruct (Hdown eq_refl) as [[_ Hnone]|[H _]]; [|exact H].
    exfalso. exact (Hnone rel Hin).
Qed.

(** Dry-run against the same turn with the flag cleared. *)
Lemma dry_step (args : Args) (s : Session World) (e : MatchedPhoto) :
  dry_run args = true ->
  let dry := migrate_entry args s e in
  let wet := migrate_entry (live args) s e in
  existsb is_write (step_events args s e) = false
  /\ step_events args s e = filter not_write (step_events (live args) s e)
  /\ skip_all_conflicts dry = skip_all_conflicts wet
  /\ (existsb is_write (step_events (live args) s e) = true ->
      processed dry = S (processed s) /\ skipped dry = skipped s /\ errors dry = errors s)
  /\ (existsb is_write (step_events (live args) s e) = false ->
      processed dry = processed wet /\ skipped dry = skipped wet /\ errors dry = errors wet).
Proof.
  intros Hdry. cbv zeta.
  assert (H : forall evs, trace (migrate_entry args s e) = trace s ++ evs ->
                          step_events args s e = evs)
    by (intros evs; apply step_events_eq).
  assert (H' : forall evs, trace (migrate_entry (live args) s e) = trace s ++ evs ->
                           step_events (live args) s e = evs)
    by (intros evs; apply step_events_eq).
  revert H H'. open_step. unfold live. cbn [dry_run overwrite_original]. rewrite Hdry.
  split_step; cbn [trace skip_all_conflicts processed skipped errors];
    intros H H'; specialize (H _ eq_refl); specialize (H' _ eq_refl);
    rewrite H, H'; cbn;
    try (repeat split; (reflexivity || discriminate || (intros; discriminate)));
    try (cbn in *; discriminate).
Qed.

Lemma dry_run_writes_nothing (args : Args) (matched : list MatchedPhoto) :
  dry_run args = true ->
  forall s : Session World,
    existsb is_write (trace (migrate_from args s matched))
    = existsb is_write (trace s).
Proof.
  intros Hdry. induction matched as [|e rest IH]; intros s; cbn.
  - reflexivity.
  - unfold migrate_from in IH. rewrite IH, trace_step, existsb_app.
    destruct (dry_step args s e Hdry) as [Hno _]. rewrite Hno.
    apply orb_false_r.
Qed.

(** C4: [needs_rating] holds exactly when the record is a favorite and the
    embedded rating is absent or below 4; [needs_description] holds exactly
    when the record's description is non-empty and differs from the
    embedded one, an absent embedded description counting as the empty
    string; and a pair for which neither holds is counted as skipped, the
    other counters unchanged, with no write call. *)
Theorem C4_needs_and_no_op :
  (forall m ex,
      needs_rating m ex = true
      <-> favorite m = true
          /\ (rating ex = None \/ exists r, rating ex = Some r /\ (r < 4)%Z))
  /\ (forall m ex,
         needs_description m ex = true
         <-> description m <> ""
             /\ description m
                <> match exif_description ex with Some d => d | None => "" end)
  /\ (forall (args : Args) (s : Session World) (e : MatchedPhoto) w1 ex,
         read_exif_data (world s) (full_path (record e)) = (w1, Some ex) ->
         needs_rating (meta e) ex = false ->
         needs_description (meta e) ex = false ->
         let s' := migrate_entry args s e in
         skipped s' = S (skipped s)
         /\ processed s' = processed s
         /\ errors s' = errors s
         /\ existsb is_write (step_events args s e) = false).
Proof.
  split; [exact needs_rating_iff|]. split; [exact needs_description_iff|].
  intros args s e w1 ex Hread Hr Hd.
  destruct (step_up_to_date args s e w1 ex Hread Hr Hd) as (H1 & H2 & H3 & _ & H5).
  cbv zeta. auto.
Qed.

(** C5: a conflict is flagged exactly when the rating is needed and the
    embedded rating is present and differs from 4, or the description is
    needed and the embedded description is non-empty; and when a turn of the
    loop on a conflicting pair calls the write, the run is not a dry run, the
    skip-all flag was down, the prompt was consulted after the read and
    answered overwrite, and the write follows that answer. *)
Theorem C5_conflict_goes_through_policy :
  (forall ex nr nd,
      evaluate_conflict ex nr nd = true
      <-> (nr = true /\ exists r, rating ex = Some r /\ r <> 4%Z)
          \/ (nd = true /\ exists d, exif_description ex = Some d /\ d <> ""))
  /\ (forall (args : Args) (s : Session World) (e : MatchedPhoto) w1 ex,
         read_exif_data (world s) (full_path (record e)) = (w1, Some ex) ->
         evaluate_conflict ex (needs_rating (meta e) ex) (needs_description (meta e) ex)
         = true ->
         existsb is_write (step_events args s e) = true ->
         dry_run args = false
         /\ skip_all_conflicts s = false
         /\ snd (prompt_conflict w1 (rel_path (record e)) ex (meta e)) = Overwrite
         /\ exists cmd_args,
              step_events args s e
              = [EvRead (full_path (record e));
                 EvPrompt (rel_path (record e)) Overwrite;
                 EvWrite cmd_args]).
Proof.
  split; [exact evaluate_conflict_iff|]. exact step_conflict_write.
Qed.

(** C6: in the trace of a run no prompt follows a skip-all answer; a turn
    of the loop whose prompt answers skip-all raises the flag; a raised flag
    stays raised to the end of the run, with no prompt made meanwhile; and
    while it is raised a conflicting pair is counted as skipped after its
    read, with no prompt and no write. *)
Theorem C6_skip_all_is_sticky (args : Args) :
  (forall w matched, sticky (trace (run_migration args w matched)))
  /\ (forall (s : Session World) e rel,
         In (EvPrompt rel SkipAll) (step_events args s e) ->
         skip_all_conflicts (migrate_entry args s e) = true)
  /\ (forall (s : Session World) matched,
         skip_all_conflicts s = true ->
         skip_all_conflicts (migrate_from args s matched) = true
         /\ exists evs,
              trace (migrate_from args s matched) = trace s ++ evs
              /\ existsb is_prompt evs = false)
  /\ (forall (s : Session World) e w1 ex,
         skip_all_conflicts s = true ->
         read_exif_data (world s) (full_path (record e)) = (w1, Some ex) ->
         needs_rating (meta e) ex || needs_description (meta e) ex = true ->
         evaluate_conflict ex (needs_rating (meta e) ex) (needs_description (meta e) ex)
         = true ->
         let s' := migrate_entry args s e in
         skipped s' = S (skipped s)
         /\ processed s' = processed s
         /\ errors s' = errors s
         /\ step_events args s e = [EvRead (full_path (record e))]).
Proof.
  repeat split.
  - intros w matched. apply sticky_invariant_run.
    split; cbn; [intros [|? ?] ? ? H; discriminate | intros _ rel []].
  - intros s e rel. apply skip_all_answer_sets_flag.
  - apply flag_stays_up; assumption.
  - apply flag_stays_up; assumption.
  - rewrite (step_sticky_skip args s e w1 ex) by assumption. reflexivity.
  - rewrite (step_sticky_skip args s e w1 ex) by assumption. reflexivity.
  - rewrite (step_sticky_skip args s e w1 ex) by assumption. reflexivity.
  - apply step_events_eq.
    rewrite (step_sticky_skip args s e w1 ex) by assumption. reflexivity.
Qed.

(** C7: in dry-run mode the trace of a run holds no write call, and a
    turn of the loop on a pair whose read succeeds and which needs a rating
    or a description goes as follows.  Without a conflict the pair is
    counted as processed after its read.  With a conflict and the skip-all
    flag up it is counted as skipped after its read.  With a conflict and
    the flag down the prompt is consulted after the read: on overwrite the
    pair is counted as processed, on skip as skipped, on skip-all as skipped
    with the flag raised.  In every case no write call is made and the
    world is the one the last call left.  Beside that, each dry turn makes
    the reads and prompts of the same turn run for real and leaves the flag
    as that turn would. *)
Theorem C7_dry_run_writes_nothing (args : Args) (Hdry : dry_run args = true) :
  (forall w matched, existsb is_write (trace (run_migration args w matched)) = false)
  /\ (forall (s : Session World) e w1 ex,
         read_exif_data (world s) (full_path (record e)) = (w1, Some ex) ->
         needs_rating (meta e) ex || needs_description (meta e) ex = true ->
         (evaluate_conflict ex (needs_rating (meta e) ex) (needs_description (meta e) ex)
          = false ->
          migrate_entry args s e
          = mkSession (S (processed s)) (skipped s) (errors s) (skip_all_conflicts s) w1
              (trace s ++ [EvRead (full_path (record e))]))
         /\ (evaluate_conflict ex (needs_rating (meta e) ex) (needs_description (meta e) ex)
             = true ->
             (skip_all_conflicts s = true ->
              migrate_entry args s e
              = mkSession (processed s) (S (skipped s)) (errors s) true w1
                  (trace s ++ [EvRead (full_path (record e))]))
             /\ (skip_all_conflicts s = false ->
                 forall w2 answer,
                   prompt_conflict w1 (rel_path (record e)) ex (meta e) = (w2, answer) ->
                   migrate_entry args s e
                   = match answer with
                     | Overwrite =>
                         mkSession (S (processed s)) (skipped s) (errors s) false w2
                           (trace s
                            ++ [EvRead (full_path (record e));
                                EvPrompt (rel_path (record e)) Overwrite])
                     | Skip =>
                         mkSession (processed s) (S (skipped s)) (errors s) false w2
                           (trace s
                            ++ [EvRead (full_path (record e));
                                EvPrompt (rel_path (record e)) Skip])
                     | SkipAll =>
                         mkSession (processed s) (S (skipped s)) (errors s) true w2
                           (trace s
                            ++ [EvRead (full_path (record e));
                                EvPrompt (rel_path (record e)) SkipAll])
                     end)))
  /\ (forall (s : Session World) e,
         let dry := migrate_entry args s e in
         let wet := migrate_entry (live args) s e in
         step_events args s e = filter not_write (step_events (live args) s e)
         /\ skip_all_conflicts dry = skip_all_conflicts wet
         /\ (existsb is_write (step_events (live args) s e) = true ->
             processed dry = S (processed s)
             /\ skipped dry = skipped s /\ errors dry = errors s)
         /\ (existsb is_write (step_events (live args) s e) = false ->
             processed dry = processed wet
             /\ skipped dry = skipped wet /\ errors dry = errors wet)).
Proof.
  split; [|split].
  - intros w matched. unfold run_migration.
    rewrite (dry_run_writes_nothing args matched Hdry). reflexivity.
  - intros s e w1 ex Hread Hneeds.
    pose proof (needs_exclude_empty_meta _ _ Hneeds) as Hmeta.
    assert (Hany : negb (needs_rating (meta e) ex) && negb (needs_description (meta e) ex)
                   = false)
      by (destruct (needs_rating (meta e) ex), (needs_description (meta e) ex);
          cbn in *; congruence).
    split.
    + intros Hconf. unfold migrate_entry, apply_change.
      rewrite Hmeta, Hread, Hany, Hconf, Hdry. reflexivity.
    + intros Hconf. split.
      * intros Hflag. unfold migrate_entry.
        rewrite Hmeta, Hread, Hany, Hconf, Hflag. unfold count_skipped.
        rewrite Hflag. reflexivity.
      * intros Hflag w2 answer Hask. unfold migrate_entry, apply_change.
        rewrite Hmeta, Hread, Hany, Hconf, Hflag, Hask, Hdry.
        destruct answer; unfold count_processed, count_skipped, set_skip_all;
          cbn [processed skipped errors skip_all_conflicts world trace];
          rewrite ?Hflag; reflexivity.
  - intros s e. destruct (dry_step args s e Hdry) as (_ & H). exact H.
Qed.

(** C10: each turn of the loop raises exactly one of the three counters by
    one, whatever the tool and the prompt do, and at the end of a run
    processed + skipped + errors is the number of matched pairs. *)
Theorem C10_counters_add_up (args : Args) (w : World) (matched : list MatchedPhoto) :
  (forall (s : Session World) e, one_counter_incremented s (migrate_entry args s e))
  /\ (let s := run_migration args w matched in
      processed s + skipped s + errors s = List.length matched).
Proof.
  split.
  - intros s e. apply migrate_entry_counts.
  - cbv zeta. unfold run_migration. rewrite (migrate_from_sum args matched). reflexivity.
Qed.

End MergerProperties.

(** ** Strings and paths *)

Lemma map_chars_length (f : ascii -> ascii) (s : string) :
  String.length (PyStr.map_chars f s) = String.length s.
Proof. induction s as [|c s IH]; cbn; congruence. Qed.

Lemma map_chars_app (f : ascii -> ascii) (a b : string) :
  PyStr.map_chars f (a ++ b) = (PyStr.map_chars f a ++ PyStr.map_chars f b)%string.
Proof. induction a as [|c a IH]; cbn; congruence. Qed.

Lemma map_chars_drop (f : ascii -> ascii) (n : nat) (s : string) :
  PyStr.drop n (PyStr.map_chars f s) = PyStr.map_chars f (PyStr.drop n s).
Proof.
  revert s. induction n as [|n IH]; intros [|c s]; cbn; auto.
Qed.

Lemma take_drop (n : nat) (s : string) :
  (PyStr.take n s ++ PyStr.drop n s)%string = s.
Proof.
  revert s. induction n as [|n IH]; intros [|c s]; cbn; auto.
  rewrite IH. reflexivity.
Qed.

Lemma string_app_length (a b : string) :
  String.length (a ++ b) = String.length a + String.length b.
Proof. induction a as [|c a IH]; cbn; congruence. Qed.

Lemma take_app_exact (a b : string) : PyStr.take (String.length a) (a ++ b) = a.
Proof. induction a as [|c a IH]; cbn; [destruct b|]; congruence. Qed.

Lemma drop_app_exact (a b : string) : PyStr.drop (String.length a) (a ++ b) = b.
Proof. induction a as [|c a IH]; cbn; [destruct b|]; auto. Qed.

(** The marker test, spelt out: one or more digits followed by a suffix
    whose upper-case form is the token. *)
Lemma is_apple_part_iff (part : string) :
  is_apple_part part = true
  <-> exists digits suffix,
        part = (digits ++ suffix)%string
        /\ PyStr.isdigit digits = true
        /\ PyStr.upper suffix = APPLE_SUFFIX.
Proof.
  unfold is_apple_part, PyStr.endswith, PyStr.drop_last, PyStr.upper.
  rewrite !andb_true_iff, Nat.leb_le, String.eqb_eq, map_chars_length, map_chars_drop.
  change (String.length APPLE_SUFFIX) with 5. split.
  - intros [[Hlen Hsuf] Hdig].
    exists (PyStr.take (String.length part - 5) part),
           (PyStr.drop (String.length part - 5) part).
    rewrite take_drop. auto.
  - intros (digits & suffix & -> & Hdig & Hsuf).
    assert (Hlen : String.length suffix = 5).
    { rewrite <- (map_chars_length PyStr.char_upper), Hsuf. reflexivity. }
    rewrite string_app_length, Hlen.
    replace (String.length digits + 5 - 5) with (String.length digits) by lia.
    rewrite take_app_exact, drop_app_exact. repeat split; auto. lia.
Qed.

(** [first_apple_index] finds the leftmost part that passes the test. *)
Lemma first_apple_index_some (parts : list string) :
  forall k idx,
    first_apple_index k parts = Some idx ->
    exists before marker after,
      parts = before ++ marker :: after
      /\ idx = k + List.length before
      /\ forallb (fun p => negb (is_apple_part p)) before = true
      /\ is_apple_part marker = true.
Proof.
  induction parts as [|p rest IH]; intros k idx H; cbn in H; [discriminate|].
  destruct (is_apple_part p) eqn:Hp.
  - injection H as <-. exists [], p, rest. cbn. repeat split; auto.
  - destruct (IH _ _ H) as (before & marker & after & -> & -> & Hb & Hm).
    exists (p :: before), marker, after. cbn. rewrite Hp, Hb.
    repeat split; auto; lia.
Qed.

Lemma first_apple_index_none (parts : list string) :
  forall k,
    first_apple_index k parts = None ->
    forallb (fun p => negb (is_apple_part p)) parts = true.
Proof.
  induction parts as [|p rest IH]; intros k H; cbn in *; [reflexivity|].
  destruct (is_apple_part p); [discriminate|]. cbn. eauto.
Qed.

Lemma join_cons (sep x : string) (l : list string) :
  l <> [] -> PyStr.join sep (x :: l) = (x ++ sep ++ PyStr.join sep l)%string.
Proof. destruct l; [congruence|reflexivity]. Qed.

Lemma split_not_nil (sep : ascii) (s : string) : PyStr.split sep s <> [].
Proof.
  destruct s as [|c s]; cbn; [discriminate|].
  destruct (Ascii.eqb c sep); [discriminate|].
  destruct (PyStr.split sep s); discriminate.
Qed.

(** Joining what [split] gave restores the string. *)
Lemma join_split (sep : ascii) (s : string) :
  PyStr.join (String sep "") (PyStr.split sep s) = s.
Proof.
  induction s as [|c s IH]; cbn [PyStr.split]; [reflexivity|].
  destruct (Ascii.eqb c sep) eqn:Hc.
  - apply Ascii.eqb_eq in Hc. subst c.
    rewrite join_cons by apply split_not_nil. rewrite IH. reflexivity.
  - pose proof (split_not_nil sep s) as Hne.
    destruct (PyStr.split sep s) as [|x xs]; [congruence|].
    destruct xs as [|y ys].
    + cbn in *. congruence.
    + rewrite <- IH. rewrite !join_cons by discriminate. reflexivity.
Qed.

(** What [split] and [join] do on strings without the separator. *)

Lemma split_sep_free_one (sep : ascii) (x : string) :
  sep_free sep x = true -> PyStr.split sep x = [x].
Proof.
  induction x as [|c x IH]; cbn; [reflexivity|].
  intros H. apply andb_true_iff in H. destruct H as [Hc Hx].
  apply negb_true_iff in Hc. rewrite Hc, (IH Hx). reflexivity.
Qed.

Lemma split_app_sep (sep : ascii) (x r : string) :
  sep_free sep x = true ->
  PyStr.split sep (x ++ String sep r) = x :: PyStr.split sep r.
Proof.
  induction x as [|c x IH]; cbn.
  - intros _. rewrite Ascii.eqb_refl. reflexivity.
  - intros H. apply andb_true_iff in H. destruct H as [Hc Hx].
    apply negb_true_iff in Hc. rewrite Hc, (IH Hx). reflexivity.
Qed.

Lemma split_join (sep : ascii) (l : list string) :
  l <> [] ->
  forallb (sep_free sep) l = true ->
  PyStr.split sep (PyStr.join (String sep "") l) = l.
Proof.
  induction l as [|x l IH]; [congruence|]. intros _ H.
  cbn in H. apply andb_true_iff in H. destruct H as [Hx Hl].
  destruct l as [|y l].
  - cbn. apply split_sep_free_one. exact Hx.
  - rewrite join_cons by discriminate. cbn [String.append].
    rewrite split_app_sep by exact Hx. rewrite IH; auto. discriminate.
Qed.

Lemma split_parts_sep_free (sep : ascii) (s : string) :
  forallb (sep_free sep) (PyStr.split sep s) = true.
Proof.
  induction s as [|c s IH]; cbn [PyStr.split]; [reflexivity|].
  destruct (Ascii.eqb c sep) eqn:Hc.
  - cbn. exact IH.
  - destruct (PyStr.split sep s) as [|x xs]; cbn in *; rewrite ?Hc; auto.
Qed.

Lemma forallb_skipn {A : Type} (p : A -> bool) (n : nat) (l : list A) :
  forallb p l = true -> forallb p (skipn n l) = true.
Proof.
  revert l. induction n as [|n IH]; intros [|x l]; cbn; auto.
  intros H. apply andb_true_iff in H. apply IH. tauto.
Qed.

Lemma filter_all {A : Type} (p : A -> bool) (l : list A) :
  forallb p l = true -> filter p l = l.
Proof.
  induction l as [|x l IH]; cbn; [reflexivity|].
  intros H. apply andb_true_iff in H. destruct H as [Hx Hl].
  rewrite Hx, (IH Hl). reflexivity.
Qed.

Lemma string_app_nil_r (s : string) : (s ++ "")%string = s.
Proof. induction s as [|c s IH]; cbn; congruence. Qed.

Lemma parse_root_plain (x r : string) :
  PurePath.kept_name x = true -> sep_free "/" x = true ->
  PurePath.parse_root (x ++ r) = "".
Proof.
  destruct x as [|c x]; [discriminate|]. cbn. intros _ H.
  apply andb_true_iff in H. destruct H as [Hc _]. apply negb_true_iff in Hc.
  unfold PurePath.parse_root. cbn. rewrite Hc. reflexivity.
Qed.

(** A path written from plain components parses to these components and
    prints back to itself. *)
Lemma parse_join_plain (l : list string) :
  l <> [] ->
  forallb (sep_free "/") l = true ->
  forallb PurePath.kept_name l = true ->
  PurePath.parse (PyStr.join "/" l) = PurePath.mk "" l.
Proof.
  intros Hne Hfree Hkept. unfold PurePath.parse.
  rewrite (split_join "/" l Hne Hfree), (filter_all _ _ Hkept). f_equal.
  destruct l as [|x l]; [congruence|]. cbn in Hfree, Hkept.
  apply andb_true_iff in Hfree, Hkept.
  destruct l as [|y l].
  - cbn. rewrite <- (parse_root_plain x ""); try tauto.
    rewrite string_app_nil_r. reflexivity.
  - rewrite join_cons by discriminate. apply parse_root_plain; tauto.
Qed.

Lemma as_posix_plain (l : list string) :
  l <> [] -> PurePath.as_posix (PurePath.mk "" l) = PyStr.join "/" l.
Proof. destruct l; [congruence|reflexivity]. Qed.

Lemma truncate_spec (path_str : string) :
  let parts := PyStr.split "/" (PyStr.replace "\" "/" path_str) in
  exists kept,
    ((exists before marker after,
         parts = before ++ marker :: after
         /\ forallb (fun p => negb (is_apple_part p)) before = true
         /\ is_apple_part marker = true
         /\ kept = marker :: after)
     \/ (forallb (fun p => negb (is_apple_part p)) parts = true /\ kept = parts))
    /\ kept <> []
    /\ forallb (sep_free "/") kept = true
    /\ truncate_to_apple_path path_str = PyStr.join "/" kept.
Proof.
  cbv zeta. unfold truncate_to_apple_path.
  pose proof (split_parts_sep_free "/" (PyStr.replace "\" "/" path_str)) as Hfree.
  destruct (first_apple_index 0 (PyStr.split "/" (PyStr.replace "\" "/" path_str)))
    as [idx|] eqn:Hidx.
  - destruct (first_apple_index_some _ _ _ Hidx)
      as (before & marker & after & Hparts & -> & Hb & Hm).
    exists (marker :: after). cbn [Nat.add].
    assert (Hskip : skipn (List.length before)
                      (PyStr.split "/" (PyStr.replace "\" "/" path_str))
                    = marker :: after).
    { rewrite Hparts, skipn_app, Nat.sub_diag, skipn_all. reflexivity. }
    repeat split.
    + left. exists before, marker, after. auto.
    + discriminate.
    + rewrite <- Hskip. apply forallb_skipn. exact Hfree.
    + rewrite Hskip. reflexivity.
  - exists (PyStr.split "/" (PyStr.replace "\" "/" path_str)). repeat split.
    + right. split; [|reflexivity]. eapply first_apple_index_none. exact Hidx.
    + apply split_not_nil.
    + exact Hfree.
    + symmetry. apply (join_split "/").
Qed.

(** ** The path normaliser *)

(** C3, as the program has it, for a path of ASCII characters, on which
    the digit and case tests of the embedding are Python's: a marker is one
    or more digits followed by a five-character suffix whose upper-case form
    is APPLE; the normaliser cuts the path, backslashes read as slashes,
    before its LEFTMOST marker segment and keeps that segment and all that
    follow; with no marker segment it keeps every segment; the kept path is
    put in pathlib's form and lower-cased, which for kept segments none of
    which is empty or a single dot is the kept path itself, lower-cased. *)
Theorem C3_normalizer_cuts_at_leftmost_marker (path_str : string) :
  is_ascii path_str = true ->
  (forall part,
      is_ascii part = true ->
      (is_apple_part part = true
       <-> exists digits suffix,
             part = (digits ++ suffix)%string
             /\ PyStr.isdigit digits = true
             /\ PyStr.upper suffix = APPLE_SUFFIX))
  /\ exists kept,
       ((exists before marker after,
            PyStr.split "/" (PyStr.replace "\" "/" path_str) = before ++ marker :: after
            /\ forallb (fun p => negb (is_apple_part p)) before = true
            /\ is_apple_part marker = true
            /\ kept = marker :: after)
        \/ (forallb (fun p => negb (is_apple_part p))
              (PyStr.split "/" (PyStr.replace "\" "/" path_str)) = true
            /\ kept = PyStr.split "/" (PyStr.replace "\" "/" path_str)))
       /\ normalize_rel_path (truncate_to_apple_path path_str)
          = PyStr.lower (PurePath.as_posix (PurePath.parse (PyStr.join "/" kept)))
       /\ (forallb PurePath.kept_name kept = true ->
           normalize_rel_path (truncate_to_apple_path path_str)
           = PyStr.lower (PyStr.join "/" kept)).
Proof.
  intros _. split; [intros part _; exact (is_apple_part_iff part)|].
  destruct (truncate_spec path_str) as (kept & Hshape & Hne & Hfree & Heq).
  exists kept. split; [exact Hshape|]. unfold normalize_rel_path. rewrite Heq.
  split; [reflexivity|]. intros Hkept.
  rewrite (parse_join_plain kept Hne Hfree Hkept), (as_posix_plain kept Hne).
  reflexivity.
Qed.

(** C3, as the specification words it, fails on a path with two marker
    segments: the program keeps the path from the first of them, the
    rightmost-marker reading keeps it from the second. *)
Lemma C3_rightmost_marker_counterexample :
  normalize_rel_path (truncate_to_apple_path "100APPLE/101APPLE/IMG_0001.JPG")
  = "100apple/101apple/img_0001.jpg"
  /\ spec_normalize_path "100APPLE/101APPLE/IMG_0001.JPG" = "101apple/img_0001.jpg"
  /\ normalize_rel_path (truncate_to_apple_path "100APPLE/101APPLE/IMG_0001.JPG")
     <> spec_normalize_path "100APPLE/101APPLE/IMG_0001.JPG".
Proof.
  split; [vm_compute; reflexivity|]. split; [vm_compute; reflexivity|].
  vm_compute. discriminate.
Qed.

(** A rooted path in mixed case written with backslashes. *)
Example normalize_windows_style_path :
  normalize_rel_path (truncate_to_apple_path "C:\Media\DCIM\100Apple\IMG_0001.jpg")
  = "100apple/img_0001.jpg".
Proof. vm_compute. reflexivity. Qed.

(** Where the two keys do agree: the store files the photo under any
    marker-free prefix followed by the marker folder, and the scan root is
    the folder that holds the marker folder, so that the path of the file
    relative to the scan root starts at the marker; letter case is free on
    both sides. *)

Lemma replace_sep_free (a b : ascii) (s : string) :
  sep_free a s = true -> PyStr.replace a b s = s.
Proof.
  unfold sep_free, PyStr.replace. induction s as [|c s IH]; cbn; [reflexivity|].
  intros H. apply andb_true_iff in H. destruct H as [Hc Hs].
  apply negb_true_iff in Hc. rewrite Hc, (IH Hs). reflexivity.
Qed.

Lemma sep_free_app (a : ascii) (x y : string) :
  sep_free a (x ++ y) = sep_free a x && sep_free a y.
Proof.
  unfold sep_free. induction x as [|c x IH]; cbn; [reflexivity|].
  rewrite IH, andb_assoc. reflexivity.
Qed.

Lemma sep_free_join (a : ascii) (l : list string) :
  a <> "/"%char ->
  forallb (sep_free a) l = true -> sep_free a (PyStr.join "/" l) = true.
Proof.
  intros Ha. induction l as [|x l IH]; [reflexivity|].
  cbn [forallb]. intros H. apply andb_true_iff in H. destruct H as [Hx Hl].
  destruct l as [|y l]; [exact Hx|].
  rewrite join_cons by discriminate. rewrite !sep_free_app, Hx, (IH Hl).
  assert (Hsep : sep_free a "/" = true).
  { unfold sep_free. cbn [PyStr.all_chars].
    destruct (Ascii.eqb_spec "/"%char a); [congruence|reflexivity]. }
  rewrite Hsep. reflexivity.
Qed.

Lemma lower_join (l : list string) :
  PyStr.lower (PyStr.join "/" l) = PyStr.join "/" (map PyStr.lower l).
Proof.
  induction l as [|x l IH]; [reflexivity|].
  destruct l as [|y l]; [reflexivity|].
  rewrite (join_cons "/" x) by discriminate. cbn [map] in *.
  rewrite (join_cons "/" (PyStr.lower x)) by discriminate. rewrite <- IH.
  unfold PyStr.lower. rewrite !map_chars_app. reflexivity.
Qed.

Lemma first_apple_index_app (before : list string) (marker : string) (after : list string) :
  forallb (fun p => negb (is_apple_part p)) before = true ->
  is_apple_part marker = true ->
  forall k, first_apple_index k (before ++ marker :: after) = Some (k + List.length before).
Proof.
  intros Hb Hm. induction before as [|p before IH]; intros k; cbn.
  - rewrite Hm. f_equal. lia.
  - cbn in Hb. apply andb_true_iff in Hb. destruct Hb as [Hp Hb].
    apply negb_true_iff in Hp. rewrite Hp, (IH Hb). f_equal. lia.
Qed.

Lemma plain_names_split (l : list string) :
  forallb plain_name l = true ->
  forallb PurePath.kept_name l = true
  /\ forallb (sep_free "/") l = true
  /\ forallb (sep_free "\") l = true.
Proof.
  induction l as [|x l IH]; cbn; [auto|].
  unfold plain_name at 1. rewrite !andb_true_iff.
  intros [[[Hk Hs] Hb] Hl]. destruct (IH Hl) as (H1 & H2 & H3).
  rewrite Hk, Hs, Hb, H1, H2, H3. auto.
Qed.

Lemma join_plain_not_empty (l : list string) :
  l <> [] -> forallb PurePath.kept_name l = true ->
  String.eqb (PyStr.join "/" l) "" = false.
Proof.
  destruct l as [|x l]; [congruence|]. intros _ H. cbn in H.
  apply andb_true_iff in H. destruct H as [Hx _].
  destruct x as [|c x]; [discriminate|].
  destruct l; reflexivity.
Qed.

Lemma normalize_plain (l : list string) :
  l <> [] ->
  forallb PurePath.kept_name l = true ->
  forallb (sep_free "/") l = true ->
  normalize_rel_path (PyStr.join "/" l) = PyStr.join "/" (map PyStr.lower l).
Proof.
  intros Hne Hk Hs. unfold normalize_rel_path.
  rewrite (parse_join_plain l Hne Hs Hk), (as_posix_plain l Hne). apply lower_join.
Qed.

Lemma keys_agree_below_marker_parent_general
    (prefix : list string) (marker : string) (mid : list string) (file : string)
    (dir' : list string) (file' : string) :
  forallb plain_name (prefix ++ marker :: mid ++ [file]) = true ->
  forallb (fun p => negb (is_apple_part p)) prefix = true ->
  is_apple_part marker = true ->
  forallb plain_name (dir' ++ [file']) = true ->
  map PyStr.lower (dir' ++ [file']) = map PyStr.lower (marker :: mid ++ [file]) ->
  metadata_key (PyStr.join "/" (prefix ++ marker :: mid)) file = file_key dir' file'.
Proof.
  intros Hplain Hpre Hm Hplain' Hlow.
  replace (prefix ++ marker :: mid ++ [file])
    with ((prefix ++ marker :: mid) ++ [file]) in Hplain
    by (rewrite <- app_assoc; reflexivity).
  destruct (plain_names_split _ Hplain) as (Hk & Hs & Hb).
  destruct (plain_names_split _ Hplain') as (Hk' & Hs' & _).
  rewrite forallb_app in Hk, Hs, Hk', Hs'.
  apply andb_true_iff in Hk, Hs, Hk', Hs'.
  destruct Hk as [Hkd Hkf], Hs as [Hsd Hsf], Hk' as [Hkd' Hkf'], Hs' as [Hsd' Hsf'].
  assert (Hne : prefix ++ marker :: mid <> []) by (destruct prefix; discriminate).
  (* the store side *)
  unfold metadata_key, build_relative_path.
  rewrite (join_plain_not_empty _ Hne Hkd).
  rewrite (parse_join_plain _ Hne Hsd Hkd).
  change file with (PyStr.join "/" [file]) at 1.
  rewrite (parse_join_plain [file]) by (assumption || discriminate).
  unfold PurePath.joinpath. cbn [PurePath.root PurePath.names String.eqb].
  rewrite as_posix_plain by (destruct prefix; discriminate).
  unfold truncate_to_apple_path.
  assert (Hall_s : forallb (sep_free "/") ((prefix ++ marker :: mid) ++ [file]) = true)
    by (rewrite forallb_app, Hsd, Hsf; reflexivity).
  assert (Hall_k : forallb PurePath.kept_name ((prefix ++ marker :: mid) ++ [file]) = true)
    by (rewrite forallb_app, Hkd, Hkf; reflexivity).
  rewrite replace_sep_free by (apply sep_free_join; [discriminate | exact Hb]).
  rewrite split_join by (auto; destruct prefix; discriminate).
  rewrite <- !app_assoc. cbn [app].
  rewrite (first_apple_index_app prefix marker (mid ++ [file]) Hpre Hm). cbn [Nat.add].
  rewrite skipn_app, Nat.sub_diag, skipn_all. cbn [skipn app].
  rewrite <- !app_assoc in Hall_s, Hall_k. cbn [app] in Hall_s, Hall_k.
  rewrite forallb_app in Hall_s, Hall_k.
  apply andb_true_iff in Hall_s, Hall_k.
  rewrite normalize_plain by (tauto || discriminate).
  (* the scan side *)
  unfold file_key, scanned_rel_path.
  change file' with (PyStr.join "/" [file']) at 1.
  rewrite (parse_join_plain [file']) by (assumption || discriminate).
  unfold PurePath.joinpath. cbn [PurePath.root PurePath.names String.eqb].
  rewrite as_posix_plain by (destruct dir'; discriminate).
  rewrite normalize_plain.
  - rewrite Hlow. reflexivity.
  - destruct dir'; discriminate.
  - rewrite forallb_app, Hkd', Hkf'. reflexivity.
  - rewrite forallb_app, Hsd', Hsf'. reflexivity.
Qed.

(** C1 at the failing input: the store files the photo under
    DCIM/100APPLE and the scan starts at the folder that holds DCIM.  The
    store side cuts the path at the marker, the scan side keeps the path
    relative to the scan root, so the two keys of the one photo differ; the
    file is accepted by the scan and the matcher pairs nothing. *)
Theorem C1_keys_differ_above_marker_parent :
  metadata_key "DCIM/100APPLE" "IMG_0001.JPG" = "100apple/img_0001.jpg"
  /\ file_key ["DCIM"; "100APPLE"] "IMG_0001.JPG" = "dcim/100apple/img_0001.jpg"
  /\ map fst (read_database_metadata dcim_store) = ["100apple/img_0001.jpg"]
  /\ map fst (scan_photo_files "/backup" true walk_above_dcim)
     = ["dcim/100apple/img_0001.jpg"]
  /\ match_metadata (read_database_metadata dcim_store)
       (scan_photo_files "/backup" true walk_above_dcim)
     = ([], 1).
Proof. repeat split; vm_compute; reflexivity. Qed.

(** The same photo scanned from the folder that holds 100APPLE is paired. *)
Example keys_agree_below_marker_parent :
  map (fun p => (rel_path (record p), relative_path (meta p)))
    (fst (match_metadata (read_database_metadata dcim_store)
            (scan_photo_files "/backup" true walk_below_dcim)))
  = [("100APPLE/IMG_0001.JPG", "100APPLE/IMG_0001.JPG")].
Proof. vm_compute. reflexivity. Qed.

(** ** Store failures and the control flow of [main] *)

Lemma match_metadata_nil (photo_files : list (string * FileRecord)) :
  match_metadata [] photo_files = ([], 0).
Proof. reflexivity. Qed.

Section MainProperties.

Context {World : Type} {C : Collaborators World}.

(** C2, as the program has it: when the query fails the extractor returns
    the empty dictionary, so nothing partial; the run then goes on to the
    scan, pairs nothing, never enters the merge loop and calls no
    collaborator, and ends with the no-photos status when the scan found no
    file and with the success status otherwise. *)
Theorem C2_store_failure_yields_empty_metadata
    (args : Args) (db : Store) (dir_exists : bool) (walk : list WalkEntry) (w : World) :
  query_rows db = None ->
  validate_database (Some db) = true ->
  let out := main true args (Some db) dir_exists walk w in
  read_database_metadata db = []
  /\ final out = mkSession 0 0 0 false w []
  /\ ((scan_photo_files (photo_dir args) dir_exists walk = []
       /\ exit_code out = EXIT_NO_PHOTOS
       /\ phases out = [PhaseDependencies; PhaseValidate; PhaseRead; PhaseScan])
      \/ (scan_photo_files (photo_dir args) dir_exists walk <> []
          /\ exit_code out = EXIT_SUCCESS
          /\ phases out
             = [PhaseDependencies; PhaseValidate; PhaseRead; PhaseScan; PhaseMatch])).
Proof.
  intros Hq Hv out. subst out.
  assert (Hmeta : read_database_metadata db = [])
    by (unfold read_database_metadata; rewrite Hq; reflexivity).
  split; [exact Hmeta|].
  unfold main. cbn [negb]. rewrite Hv. cbn [negb]. rewrite Hmeta.
  destruct (scan_photo_files (photo_dir args) dir_exists walk) as [|f files].
  - split; [reflexivity|]. left. auto.
  - rewrite match_metadata_nil. cbn. split; [reflexivity|]. right.
    repeat split. discriminate.
Qed.

End MainProperties.

(** C2, as the specification words it, fails on a locked store beside a
    copy of the phone: the query raises, the extractor's result is the one
    of a store with no asset, and the run goes through the scan and the
    matching and ends with the success status. *)
Lemma C2_locked_store_counterexample :
  query_rows locked_store = None
  /\ read_database_metadata locked_store = read_database_metadata empty_store
  /\ exit_code (main true live_args (Some locked_store) true walk_below_dcim unrated_world)
     = EXIT_SUCCESS
  /\ phases (main true live_args (Some locked_store) true walk_below_dcim unrated_world)
     = [PhaseDependencies; PhaseValidate; PhaseRead; PhaseScan; PhaseMatch].
Proof. repeat split; vm_compute; reflexivity. Qed.

Lemma C2_witness :
  read_database_metadata locked_store = []
  /\ final (main true live_args (Some locked_store) true walk_below_dcim unrated_world)
     = mkSession 0 0 0 false unrated_world []
  /\ ((scan_photo_files (photo_dir live_args) true walk_below_dcim = []
       /\ exit_code (main true live_args (Some locked_store) true walk_below_dcim unrated_world)
          = EXIT_NO_PHOTOS
       /\ phases (main true live_args (Some locked_store) true walk_below_dcim unrated_world)
          = [PhaseDependencies; PhaseValidate; PhaseRead; PhaseScan])
      \/ (scan_photo_files (photo_dir live_args) true walk_below_dcim <> []
          /\ exit_code (main true live_args (Some locked_store) true walk_below_dcim unrated_world)
             = EXIT_SUCCESS
          /\ phases (main true live_args (Some locked_store) true walk_below_dcim unrated_world)
             = [PhaseDependencies; PhaseValidate; PhaseRead; PhaseScan; PhaseMatch])).
Proof.
  exact (C2_store_failure_yields_empty_metadata live_args locked_store true
           walk_below_dcim unrated_world eq_refl eq_refl).
Defined.

(** ** The schema resolver and the extractor *)

(** The clauses the resolver emits, in order: long description, title,
    caption, each when its source was detected. *)
Lemma desc_clauses_order (tables : Schema) :
  desc_clauses (build_metadata_query tables)
  = (if long_detected tables then [ClauseLong] else [])
    ++ (if title_detected tables then [ClauseTitle] else [])
    ++ (if caption_detected tables then [ClauseCaption] else []).
Proof.
  unfold build_metadata_query, long_detected, title_detected, caption_detected.
  destruct (has_table "ZADDITIONALASSETATTRIBUTES" tables);
    destruct (has_column "ZTITLE" (columns_of tables "ZADDITIONALASSETATTRIBUTES"));
    destruct (has_table "ZASSETDESCRIPTION" tables);
    destruct (has_column "ZLONGDESCRIPTION" (columns_of tables "ZASSETDESCRIPTION"));
    destruct (has_table "ZEXTENDEDATTRIBUTES" tables);
    destruct (has_column "ZCAPTION" (columns_of tables "ZEXTENDEDATTRIBUTES"));
    cbn;
    repeat match goal with
           | |- context [if ?b then _ else _] => destruct b
           end;
    reflexivity.
Qed.



Lemma holds_and3 (a b : Sql.truth) :
  Sql.holds (Sql.and3 a b) = true <-> a = Some true /\ b = Some true.
Proof.
  destruct a as [[|]|], b as [[|]|]; cbn; split;
    try discriminate; try (intros [? ?]; discriminate); auto.
Qed.

Lemma or3_true (a b : Sql.truth) :
  Sql.or3 a b = Some true <-> a = Some true \/ b = Some true.
Proof.
  destruct a as [[|]|], b as [[|]|]; cbn; split;
    try discriminate; try (intros [?|?]; discriminate); auto.
Qed.

Lemma eq_int_true (x : option Z) (k : Z) :
  Sql.eq_int x (Some k) = Some true <-> x = Some k.
Proof.
  destruct x as [n|]; cbn; [|split; discriminate].
  split.
  - intros H. injection H as H. apply Z.eqb_eq in H. congruence.
  - intros H. injection H as ->. rewrite Z.eqb_refl. reflexivity.
Qed.

Lemma ne_text_true (x : option string) :
  Sql.ne_text x (Some "") = Some true <-> exists d, x = Some d /\ d <> "".
Proof.
  destruct x as [s|]; cbn.
  - split.
    + intros H. injection H as H. apply negb_true_iff, String.eqb_neq in H.
      exists s. auto.
    + intros (d & Hd & Hne). injection Hd as ->.
      apply String.eqb_neq in Hne. rewrite Hne. reflexivity.
  - split; [discriminate|]. intros (d & Hd & _). discriminate.
Qed.

(** The WHERE clause is the inclusion predicate. *)
Lemma where_clause_iff (plan : QueryPlan) (row : JoinedRow) :
  where_clause plan row = true <-> spec_included plan row.
Proof.
  unfold where_clause, spec_included.
  rewrite holds_and3, or3_true, !eq_int_true, ne_text_true. reflexivity.
Qed.

Lemma add_row_members (rows : list ResultRow) :
  forall acc key m,
    In (key, m) (fst (fold_left add_row rows acc)) ->
    In (key, m) (fst acc)
    \/ exists row,
         In row rows
         /\ key = metadata_key (PyStr.or_empty (row_ZDIRECTORY row))
                    (PyStr.or_empty (row_ZFILENAME row))
         /\ m = row_meta row.
Proof.
  induction rows as [|r rows IH]; intros acc key m H; cbn in H; [left; exact H|].
  apply IH in H. destruct H as [H|(row & Hin & Hk & Hm)].
  - destruct acc as [metadata duplicates]. cbn [add_row] in H.
    destruct (dict_mem _ metadata); cbn [fst] in H; [left; exact H|].
    apply in_app_or in H. destruct H as [H|[H|[]]]; [left; exact H|].
    injection H as <- <-. right. exists r. cbn. auto.
  - right. exists row. cbn. auto.
Qed.

Lemma emitted_from_included_row (db : Store) (key : string) (m : PhotoMeta) :
  In (key, m) (read_database_metadata db) ->
  exists row,
    In row (joined_rows (build_metadata_query (tables db)) db)
    /\ spec_included (build_metadata_query (tables db)) row
    /\ key = metadata_key (PyStr.or_empty (ZDIRECTORY (j_asset row)))
               (PyStr.or_empty (ZFILENAME (j_asset row)))
    /\ m = row_meta (select_row (build_metadata_query (tables db)) row).
Proof.
  unfold read_database_metadata, query_rows, fetch_table_names.
  destruct (fault_on_read db); [intros []|].
  destruct (statement_prepares (tables db) (build_metadata_query (tables db)));
    [|intros []].
  intros H. apply add_row_members in H. destruct H as [[]|(r & Hin & Hk & Hm)].
  apply in_map_iff in Hin. destruct Hin as (row & <- & Hin).
  apply filter_In in Hin. destruct Hin as [Hin Hw].
  exists row. split; [exact Hin|]. split; [apply where_clause_iff; exact Hw|].
  split; [exact Hk|exact Hm].
Qed.

(** C8: every record the extractor emits comes from a row of the store that
    is not trashed and is marked favorite or has a non-empty resolved
    description; when no row of the store is such a row, no record is
    produced. *)
Theorem C8_extractor_is_a_strict_filter (db : Store) :
  (forall key m,
      In (key, m) (read_database_metadata db) ->
      exists row,
        In row (joined_rows (build_metadata_query (tables db)) db)
        /\ ZTRASHEDSTATE (j_asset row) = Some 0%Z
        /\ (ZFAVORITE (j_asset row) = Some 1%Z
            \/ exists d,
                 desc_value (build_metadata_query (tables db)) row = Some d /\ d <> "")
        /\ key = metadata_key (PyStr.or_empty (ZDIRECTORY (j_asset row)))
                   (PyStr.or_empty (ZFILENAME (j_asset row)))
        /\ m = row_meta (select_row (build_metadata_query (tables db)) row))
  /\ ((forall row,
          In row (joined_rows (build_metadata_query (tables db)) db) ->
          ~ spec_included (build_metadata_query (tables db)) row) ->
      read_database_metadata db = []).
Proof.
  split.
  - intros key m H. destruct (emitted_from_included_row db key m H)
      as (row & Hin & [Ht Hor] & Hk & Hm).
    exists row. auto.
  - intros Hnone. destruct (read_database_metadata db) as [|[key m] rest] eqn:E;
      [reflexivity|]. exfalso.
    destruct (emitted_from_included_row db key m) as (row & Hin & Hinc & _).
    + rewrite E. left. reflexivity.
    + exact (Hnone row Hin Hinc).
Qed.

(** The joins the resolver emits, in order. *)
Lemma joins_shape (tables : Schema) :
  joins (build_metadata_query tables)
  = (if has_table "ZADDITIONALASSETATTRIBUTES" tables
     then [if has_column "ZADDITIONALATTRIBUTES" (columns_of tables "ZASSET")
           then JoinAttrsForward else JoinAttrsBackward]
     else [])
    ++ (if has_table "ZASSETDESCRIPTION" tables
           && has_table "ZADDITIONALASSETATTRIBUTES" tables
        then if has_column "ZASSETDESCRIPTION"
                  (columns_of tables "ZADDITIONALASSETATTRIBUTES")
             then [JoinDescForward]
             else if has_column "ZASSETATTRIBUTES" (columns_of tables "ZASSETDESCRIPTION")
                  then [JoinDescBackward] else []
        else [])
    ++ (if caption_detected tables then [JoinExtended] else []).
Proof.
  unfold build_metadata_query, caption_detected.
  destruct (has_table "ZADDITIONALASSETATTRIBUTES" tables);
    destruct (has_column "ZTITLE" (columns_of tables "ZADDITIONALASSETATTRIBUTES"));
    destruct (has_table "ZASSETDESCRIPTION" tables);
    destruct (has_column "ZASSETDESCRIPTION"
                (columns_of tables "ZADDITIONALASSETATTRIBUTES"));
    destruct (has_column "ZASSETATTRIBUTES" (columns_of tables "ZASSETDESCRIPTION"));
    destruct (has_column "ZLONGDESCRIPTION" (columns_of tables "ZASSETDESCRIPTION"));
    destruct (has_table "ZEXTENDEDATTRIBUTES" tables);
    destruct (has_column "ZCAPTION" (columns_of tables "ZEXTENDEDATTRIBUTES"));
    destruct (has_column "ZADDITIONALATTRIBUTES" (columns_of tables "ZASSET"));
    reflexivity.
Qed.

(** The rows of the FROM clause are linked rows of the store. *)








(** The query text of the newer schema generation. *)
Example ios18_query_text :
  desc_expr_sql (build_metadata_query ios18_schema)
  = "COALESCE(NULLIF(ZASSETDESCRIPTION.ZLONGDESCRIPTION, ''), NULLIF(ZADDITIONALASSETATTRIBUTES.ZTITLE, ''), '')"
  /\ joins (build_metadata_query ios18_schema) = [JoinAttrsForward; JoinDescForward].
Proof. split; vm_compute; reflexivity. Qed.

(** A title of blanks passes the filter, being non-empty in the store; the
    record built from it has the stripped, empty description, which is why
    the merge loop tests again for a record with nothing to migrate. *)
Example blank_title_is_emitted_empty :
  map snd (read_database_metadata blank_title_store)
  = [mkPhotoMeta "100APPLE/IMG_0004.JPG" false ""].
Proof. vm_compute. reflexivity. Qed.

(** With the description table present but linked by neither column, the
    resolver still names its long description: the statement does not
    prepare and the extractor returns nothing. *)
Example unlinked_description_table_fails :
  long_detected unlinked_schema = true
  /\ joins (build_metadata_query unlinked_schema) = [JoinAttrsBackward]
  /\ query_rows unlinked_store = None
  /\ read_database_metadata unlinked_store = [].
Proof. repeat split; vm_compute; reflexivity. Qed.

(** The scenarios of the specification: a favorite with no embedded rating
    is written the rating 4; a described photo whose file carries the
    description is skipped; a dry run counts the pending change and writes
    nothing. *)
Example scenario_favorite_is_rated :
  let s := run_migration live_args (backup_world []) [unrated_pair] in
  (processed s, skipped s, errors s) = (1, 0, 0)
  /\ trace s
     = [EvRead "/backup/100APPLE/IMG_0001.JPG";
        EvWrite ["-Rating=4"; "/backup/100APPLE/IMG_0001.JPG"]].
Proof. split; vm_compute; reflexivity. Qed.

Example scenario_up_to_date_is_skipped :
  let s := run_migration live_args (backup_world []) [sunset_pair] in
  (processed s, skipped s, errors s) = (0, 1, 0)
  /\ trace s = [EvRead "/backup/101APPLE/IMG_0002.HEIC"].
Proof. split; vm_compute; reflexivity. Qed.

Example scenario_dry_run :
  let s := run_migration dry_args (backup_world []) [unrated_pair] in
  (processed s, skipped s, errors s) = (1, 0, 0)
  /\ trace s = [EvRead "/backup/100APPLE/IMG_0001.JPG"].
Proof. split; vm_compute; reflexivity. Qed.

(** A run over the three pairs in which the prompt answers skip-all. *)
Example scenario_skip_all :
  let s := run_migration live_args (backup_world [SkipAll; Overwrite])
             [rated_pair; unrated_pair; rated_pair] in
  (processed s, skipped s, errors s) = (1, 2, 0)
  /\ filter is_prompt (trace s) = [EvPrompt "102APPLE/IMG_0003.JPG" SkipAll].
Proof. split; vm_compute; reflexivity. Qed.

(** ** The theorems at concrete inputs *)

Lemma C4_witness :
  skipped (migrate_entry live_args (fresh_session (backup_world [])) sunset_pair) = 1
  /\ processed (migrate_entry live_args (fresh_session (backup_world [])) sunset_pair) = 0
  /\ errors (migrate_entry live_args (fresh_session (backup_world [])) sunset_pair) = 0
  /\ existsb is_write (step_events live_args (fresh_session (backup_world [])) sunset_pair)
     = false.
Proof.
  exact (proj2 (proj2 (@C4_needs_and_no_op Script scripted))
           live_args (fresh_session (backup_world [])) sunset_pair
           (backup_world []) sunset_exif eq_refl eq_refl eq_refl).
Defined.

Lemma C5_witness :
  dry_run live_args = false
  /\ skip_all_conflicts (fresh_session (backup_world [Overwrite])) = false
  /\ snd (prompt_conflict (backup_world [Overwrite]) (rel_path (record rated_pair))
            rated_exif (meta rated_pair))
     = Overwrite
  /\ exists cmd_args,
       step_events live_args (fresh_session (backup_world [Overwrite])) rated_pair
       = [EvRead (full_path (record rated_pair));
          EvPrompt (rel_path (record rated_pair)) Overwrite;
          EvWrite cmd_args].
Proof.
  exact (proj2 (@C5_conflict_goes_through_policy Script scripted)
           live_args (fresh_session (backup_world [Overwrite])) rated_pair
           (backup_world [Overwrite]) rated_exif eq_refl eq_refl eq_refl).
Defined.

Lemma C6_witness :
  skipped (migrate_entry live_args (flagged_session (backup_world [Overwrite])) rated_pair)
  = 2
  /\ processed (migrate_entry live_args (flagged_session (backup_world [Overwrite])) rated_pair)
     = 0
  /\ errors (migrate_entry live_args (flagged_session (backup_world [Overwrite])) rated_pair)
     = 0
  /\ step_events live_args (flagged_session (backup_world [Overwrite])) rated_pair
     = [EvRead (full_path (record rated_pair))].
Proof.
  exact (proj2 (proj2 (proj2 (@C6_skip_all_is_sticky Script scripted live_args)))
           (flagged_session (backup_world [Overwrite])) rated_pair
           (backup_world [Overwrite]) rated_exif eq_refl eq_refl eq_refl eq_refl).
Defined.

Lemma C7_witness :
  existsb is_write
    (trace (run_migration dry_args (backup_world [Overwrite])
              [unrated_pair; sunset_pair; rated_pair]))
  = false
  /\ migrate_entry dry_args (fresh_session (backup_world [])) unrated_pair
     = mkSession 1 0 0 false (backup_world [])
         [EvRead "/backup/100APPLE/IMG_0001.JPG"]
  /\ migrate_entry dry_args (fresh_session (backup_world [Overwrite])) rated_pair
     = mkSession 1 0 0 false (backup_world [])
         [EvRead "/backup/102APPLE/IMG_0003.JPG";
          EvPrompt "102APPLE/IMG_0003.JPG" Overwrite]
  /\ migrate_entry dry_args (fresh_session (backup_world [SkipAll])) rated_pair
     = mkSession 0 1 0 true (backup_world [])
         [EvRead "/backup/102APPLE/IMG_0003.JPG";
          EvPrompt "102APPLE/IMG_0003.JPG" SkipAll].
Proof.
  split; [|split; [|split]].
  - exact (proj1 (@C7_dry_run_writes_nothing Script scripted dry_args eq_refl)
             (backup_world [Overwrite]) [unrated_pair; sunset_pair; rated_pair]).
  - exact (proj1 (proj1 (proj2 (@C7_dry_run_writes_nothing Script scripted dry_args eq_refl))
                    (fresh_session (backup_world [])) unrated_pair (backup_world [])
                    (mkExifData None None) eq_refl eq_refl)
             eq_refl).
  - exact (proj2 (proj2 (proj1 (proj2 (@C7_dry_run_writes_nothing Script scripted dry_args
                                         eq_refl))
                           (fresh_session (backup_world [Overwrite])) rated_pair
                           (backup_world [Overwrite]) rated_exif eq_refl eq_refl)
                    eq_refl)
             eq_refl (backup_world []) Overwrite eq_refl).
  - exact (proj2 (proj2 (proj1 (proj2 (@C7_dry_run_writes_nothing Script scripted dry_args
                                         eq_refl))
                           (fresh_session (backup_world [SkipAll])) rated_pair
                           (backup_world [SkipAll]) rated_exif eq_refl eq_refl)
                    eq_refl)
             eq_refl (backup_world []) SkipAll eq_refl).
Defined.

Lemma C3_witness :
  (forall part,
      is_ascii part = true ->
      (is_apple_part part = true
       <-> exists digits suffix,
             part = (digits ++ suffix)%string
             /\ PyStr.isdigit digits = true
             /\ PyStr.upper suffix = APPLE_SUFFIX))
  /\ exists kept,
       ((exists before marker after,
            PyStr.split "/" (PyStr.replace "\" "/" "C:\Media\DCIM\100Apple\IMG_0001.jpg") = before ++ marker :: after
            /\ forallb (fun p => negb (is_apple_part p)) before = true
            /\ is_apple_part marker = true
            /\ kept = marker :: after)
        \/ (forallb (fun p => negb (is_apple_part p))
              (PyStr.split "/" (PyStr.replace "\" "/" "C:\Media\DCIM\100Apple\IMG_0001.jpg")) = true
            /\ kept = PyStr.split "/" (PyStr.replace "\" "/" "C:\Media\DCIM\100Apple\IMG_0001.jpg")))
       /\ normalize_rel_path (truncate_to_apple_path "C:\Media\DCIM\100Apple\IMG_0001.jpg")
          = PyStr.lower (PurePath.as_posix (PurePath.parse (PyStr.join "/" kept)))
       /\ (forallb PurePath.kept_name kept = true ->
           normalize_rel_path (truncate_to_apple_path "C:\Media\DCIM\100Apple\IMG_0001.jpg")
           = PyStr.lower (PyStr.join "/" kept)).
Proof.
  exact (C3_normalizer_cuts_at_leftmost_marker "C:\Media\DCIM\100Apple\IMG_0001.jpg" eq_refl).
Defined.

Lemma C8_witness :
  exists row,
    In row (joined_rows (build_metadata_query (tables dcim_store)) dcim_store)
    /\ ZTRASHEDSTATE (j_asset row) = Some 0%Z
    /\ (ZFAVORITE (j_asset row) = Some 1%Z
        \/ exists d,
             desc_value (build_metadata_query (tables dcim_store)) row = Some d
             /\ d <> "")
    /\ "100apple/img_0001.jpg"
       = metadata_key (PyStr.or_empty (ZDIRECTORY (j_asset row)))
           (PyStr.or_empty (ZFILENAME (j_asset row)))
    /\ mkPhotoMeta "100APPLE/IMG_0001.JPG" true ""
       = row_meta (select_row (build_metadata_query (tables dcim_store)) row).
Proof.
  exact (proj1 (C8_extractor_is_a_strict_filter dcim_store)
           "100apple/img_0001.jpg" (mkPhotoMeta "100APPLE/IMG_0001.JPG" true "")
           (or_introl eq_refl)).
Defined.


(* ================================================================== *)
(** * Part II, continued: further properties of the program            *)
(* ================================================================== *)

(** ** Stripping *)

Lemma lstrip_is_with (s : string) :
  PyStr.lstrip s = PyStrip.lstrip_with PyStr.char_isspace s.
Proof. induction s as [|c s IH]; cbn; [reflexivity|]. rewrite IH. reflexivity. Qed.

Lemma rstrip_is_with (s : string) :
  PyStr.rstrip s = PyStrip.rstrip_with PyStr.char_isspace s.
Proof. induction s as [|c s IH]; cbn; [reflexivity|]. rewrite IH. reflexivity. Qed.

Lemma strip_is_with (s : string) :
  PyStr.strip s = PyStrip.strip_with PyStr.char_isspace s.
Proof.
  unfold PyStr.strip, PyStrip.strip_with. rewrite rstrip_is_with, lstrip_is_with.
  reflexivity.
Qed.

Section Stripping.

Variable p : ascii -> bool.

Lemma lstrip_with_first (s : string) (c : ascii) :
  first_char (PyStrip.lstrip_with p s) = Some c -> p c = false.
Proof.
  induction s as [|d s IH]; cbn; [discriminate|].
  destruct (p d) eqn:Hd; [exact IH|]. cbn. intros H. injection H as <-. exact Hd.
Qed.

Lemma rstrip_with_last (s : string) (c : ascii) :
  last_char (PyStrip.rstrip_with p s) = Some c -> p c = false.
Proof.
  induction s as [|d s IH]; cbn; [discriminate|].
  destruct (PyStrip.rstrip_with p s) as [|e r] eqn:Hr.
  - destruct (p d) eqn:Hd; cbn; [discriminate|]. intros H. injection H as <-. exact Hd.
  - cbn [last_char]. exact IH.
Qed.

Lemma rstrip_with_idem (s : string) :
  PyStrip.rstrip_with p (PyStrip.rstrip_with p s) = PyStrip.rstrip_with p s.
Proof.
  induction s as [|d s IH]; cbn; [reflexivity|].
  destruct (PyStrip.rstrip_with p s) as [|e r] eqn:Hr.
  - destruct (p d) eqn:Hd; cbn; [reflexivity|]. rewrite Hd. reflexivity.
  - cbn [PyStrip.rstrip_with]. cbn [PyStrip.rstrip_with] in IH.
    destruct (match PyStrip.rstrip_with p r with
              | EmptyString => if p e then EmptyString else String e EmptyString
              | String a s0 => String e (String a s0)
              end) eqn:Hm; [discriminate|].
    injection IH as -> ->. reflexivity.
Qed.

Lemma rstrip_with_keeps_first (s : string) (c : ascii) :
  first_char s = Some c -> p c = false ->
  first_char (PyStrip.rstrip_with p s) = Some c.
Proof.
  destruct s as [|d s]; cbn; [discriminate|].
  intros H Hc. injection H as ->.
  destruct (PyStrip.rstrip_with p s); [rewrite Hc|]; reflexivity.
Qed.

Lemma lstrip_with_fixed (s : string) :
  (forall c, first_char s = Some c -> p c = false) ->
  PyStrip.lstrip_with p s = s.
Proof.
  destruct s as [|d s]; cbn; [reflexivity|].
  intros H. rewrite (H d eq_refl). reflexivity.
Qed.

Lemma strip_with_first (s : string) (c : ascii) :
  first_char (PyStrip.strip_with p s) = Some c -> p c = false.
Proof.
  unfold PyStrip.strip_with. intros H.
  destruct (first_char (PyStrip.lstrip_with p s)) as [d|] eqn:Hd.
  - pose proof (lstrip_with_first s d Hd) as Hpd.
    rewrite (rstrip_with_keeps_first _ d Hd Hpd) in H. injection H as <-. exact Hpd.
  - destruct (PyStrip.lstrip_with p s); [discriminate H|discriminate Hd].
Qed.

Lemma strip_with_idem (s : string) :
  PyStrip.strip_with p (PyStrip.strip_with p s) = PyStrip.strip_with p s.
Proof.
  unfold PyStrip.strip_with at 1.
  rewrite lstrip_with_fixed by apply strip_with_first.
  unfold PyStrip.strip_with. apply rstrip_with_idem.
Qed.

End Stripping.

Lemma strip_no_outer_blank (s : string) : no_outer_blank (PyStr.strip s).
Proof.
  rewrite strip_is_with. split; intros c H.
  - eapply strip_with_first; eauto.
  - unfold PyStrip.strip_with in H. eapply rstrip_with_last; eauto.
Qed.

Lemma strip_idem (s : string) : PyStr.strip (PyStr.strip s) = PyStr.strip s.
Proof. rewrite !strip_is_with. apply strip_with_idem. Qed.

(** ** Idempotence of the normaliser *)

Lemma replace_removes (a b : ascii) (s : string) :
  a <> b -> sep_free a (PyStr.replace a b s) = true.
Proof.
  intros Hab. unfold sep_free, PyStr.replace.
  induction s as [|c s IH]; cbn; [reflexivity|]. rewrite IH, andb_true_r.
  destruct (Ascii.eqb_spec c a) as [->|Hc]; apply negb_true_iff, Ascii.eqb_neq; congruence.
Qed.

Lemma split_keeps_free (a sep : ascii) (s : string) :
  sep_free a s = true -> forallb (sep_free a) (PyStr.split sep s) = true.
Proof.
  unfold sep_free. induction s as [|c s IH]; cbn [PyStr.split PyStr.all_chars];
    [reflexivity|].
  intros H. apply andb_true_iff in H. destruct H as [Hc Hs]. specialize (IH Hs).
  destruct (Ascii.eqb c sep).
  - cbn. exact IH.
  - destruct (PyStr.split sep s) as [|x xs]; cbn in *; rewrite Hc; auto.
Qed.

Lemma first_apple_index_head (marker : string) (after : list string) :
  is_apple_part marker = true -> first_apple_index 0 (marker :: after) = Some 0.
Proof. intros H. cbn. rewrite H. reflexivity. Qed.

Lemma first_apple_index_absent (parts : list string) :
  forallb (fun p => negb (is_apple_part p)) parts = true ->
  forall k, first_apple_index k parts = None.
Proof.
  induction parts as [|p parts IH]; cbn; [reflexivity|].
  intros H k. apply andb_true_iff in H. destruct H as [Hp Hr].
  apply negb_true_iff in Hp. rewrite Hp. apply IH. exact Hr.
Qed.

Lemma truncate_idempotent (path_str : string) :
  truncate_to_apple_path (truncate_to_apple_path path_str)
  = truncate_to_apple_path path_str.
Proof.
  destruct (truncate_spec path_str) as (kept & Hshape & Hne & Hfree & Heq).
  assert (Hback : forallb (sep_free "\") kept = true).
  { pose proof (split_keeps_free "\" "/" _
                  (replace_removes "\" "/" path_str ltac:(discriminate))) as Hall.
    destruct Hshape as [(before & marker & after & Hparts & _ & _ & ->)|[_ ->]];
      [|exact Hall].
    rewrite Hparts, forallb_app in Hall. apply andb_true_iff in Hall. tauto. }
  rewrite Heq. unfold truncate_to_apple_path.
  rewrite replace_sep_free by (apply sep_free_join; [discriminate | exact Hback]).
  rewrite (split_join "/" kept Hne Hfree).
  destruct Hshape as [(before & marker & after & _ & _ & Hm & ->)|[Hnone Hk]].
  - rewrite (first_apple_index_head marker after Hm). reflexivity.
  - rewrite first_apple_index_absent; [reflexivity|]. rewrite Hk. exact Hnone.
Qed.

Lemma char_lower_idem (c : ascii) : PyStr.char_lower (PyStr.char_lower c) = PyStr.char_lower c.
Proof. destruct c as [[] [] [] [] [] [] [] []]; vm_compute; reflexivity. Qed.

Lemma char_lower_slash (c : ascii) :
  Ascii.eqb (PyStr.char_lower c) "/" = Ascii.eqb c "/".
Proof. destruct c as [[] [] [] [] [] [] [] []]; vm_compute; reflexivity. Qed.

Lemma char_lower_dot (c : ascii) :
  Ascii.eqb (PyStr.char_lower c) "." = Ascii.eqb c ".".
Proof. destruct c as [[] [] [] [] [] [] [] []]; vm_compute; reflexivity. Qed.

Lemma lower_idem (s : string) : PyStr.lower (PyStr.lower s) = PyStr.lower s.
Proof.
  unfold PyStr.lower. induction s as [|c s IH]; cbn; [reflexivity|].
  rewrite char_lower_idem, IH. reflexivity.
Qed.

Lemma lower_sep_free (s : string) :
  sep_free "/" (PyStr.lower s) = sep_free "/" s.
Proof.
  unfold sep_free, PyStr.lower. induction s as [|c s IH]; cbn; [reflexivity|].
  rewrite char_lower_slash, IH. reflexivity.
Qed.

Lemma lower_kept_name (s : string) :
  PurePath.kept_name (PyStr.lower s) = PurePath.kept_name s.
Proof.
  unfold PurePath.kept_name, PyStr.lower. destruct s as [|c [|d s]]; cbn; try reflexivity.
  - rewrite char_lower_dot. reflexivity.
  - destruct (Ascii.eqb (PyStr.char_lower c) "."), (Ascii.eqb c "."); reflexivity.
Qed.

Lemma forallb_map_lower (p : string -> bool) (l : list string) :
  (forall s, p (PyStr.lower s) = p s) ->
  forallb p (map PyStr.lower l) = forallb p l.
Proof.
  intros H. induction l as [|x l IH]; cbn; [reflexivity|]. rewrite H, IH. reflexivity.
Qed.

Lemma filter_kept_sep_free (l : list string) :
  forallb PurePath.kept_name (filter PurePath.kept_name l) = true.
Proof.
  induction l as [|x l IH]; cbn; [reflexivity|].
  destruct (PurePath.kept_name x) eqn:Hx; cbn; rewrite ?Hx; auto.
Qed.

Lemma forallb_filter {A : Type} (p q : A -> bool) (l : list A) :
  forallb p l = true -> forallb p (filter q l) = true.
Proof.
  induction l as [|x l IH]; cbn; [reflexivity|].
  intros H. apply andb_true_iff in H. destruct H as [Hx Hl].
  destruct (q x); cbn; rewrite ?Hx; auto.
Qed.

Lemma parse_root_cases (s : string) :
  PurePath.parse_root s = "" \/ PurePath.parse_root s = "/" \/ PurePath.parse_root s = "//".
Proof.
  unfold PurePath.parse_root.
  destruct (PurePath.leading "/" s) as [|[|[|n]]]; auto.
Qed.

Lemma split_cons_sep (sep : ascii) (s : string) :
  PyStr.split sep (String sep s) = "" :: PyStr.split sep s.
Proof. cbn. rewrite Ascii.eqb_refl. reflexivity. Qed.

Lemma leading_cons (c : ascii) (s : string) :
  PurePath.leading c (String c s) = S (PurePath.leading c s).
Proof. cbn. rewrite Ascii.eqb_refl. reflexivity. Qed.

(** A rooted path written from plain components parses to itself. *)
Lemma parse_rooted_plain (r : string) (l : list string) :
  r = "" \/ r = "/" \/ r = "//" ->
  forallb (sep_free "/") l = true ->
  forallb PurePath.kept_name l = true ->
  (r = "" -> l <> []) ->
  PurePath.parse (r ++ PyStr.join "/" l) = PurePath.mk r l.
Proof.
  intros Hr Hfree Hkept Hne.
  destruct l as [|x l].
  - destruct Hr as [->|[->| ->]]; reflexivity.
  - assert (Hnames : filter PurePath.kept_name (PyStr.split "/" (PyStr.join "/" (x :: l)))
                     = x :: l)
      by (rewrite split_join by (auto; discriminate); apply filter_all; exact Hkept).
    assert (Hlead : PurePath.leading "/" (PyStr.join "/" (x :: l)) = 0).
    { cbn in Hfree, Hkept. apply andb_true_iff in Hfree, Hkept.
      destruct Hfree as [Hx _], Hkept as [Hk _].
      destruct x as [|c x]; [discriminate|].
      unfold sep_free in Hx. cbn in Hx. apply andb_true_iff in Hx.
      destruct Hx as [Hc _]. apply negb_true_iff in Hc.
      destruct l; cbn; rewrite Hc; reflexivity. }
    remember (PyStr.join "/" (x :: l)) as J eqn:HJ.
    unfold PurePath.parse, PurePath.parse_root.
    destruct Hr as [->|[->| ->]]; cbn [String.append].
    + rewrite Hlead, Hnames. reflexivity.
    + rewrite split_cons_sep, leading_cons, Hlead. cbn [filter PurePath.kept_name].
      cbn [String.eqb negb andb]. rewrite Hnames. reflexivity.
    + rewrite !split_cons_sep, !leading_cons, Hlead. cbn [filter PurePath.kept_name].
      cbn [String.eqb negb andb]. rewrite Hnames. reflexivity.
Qed.

Lemma lower_app (a b : string) :
  PyStr.lower (a ++ b) = (PyStr.lower a ++ PyStr.lower b)%string.
Proof. apply map_chars_app. Qed.

Lemma lower_root (r : string) :
  r = "" \/ r = "/" \/ r = "//" -> PyStr.lower r = r.
Proof. intros [->|[->| ->]]; reflexivity. Qed.

(** The key of a path written from a root and plain components. *)
Lemma normalize_rooted_plain (r : string) (l : list string) :
  r = "" \/ r = "/" \/ r = "//" ->
  forallb (sep_free "/") l = true ->
  forallb PurePath.kept_name l = true ->
  (r = "" -> l <> []) ->
  normalize_rel_path (r ++ PyStr.join "/" l)
  = (r ++ PyStr.join "/" (map PyStr.lower l))%string.
Proof.
  intros Hr Hs Hk Hne. unfold normalize_rel_path.
  rewrite (parse_rooted_plain r l Hr Hs Hk Hne).
  assert (Hp : PurePath.as_posix (PurePath.mk r l) = (r ++ PyStr.join "/" l)%string).
  { unfold PurePath.as_posix. cbn [PurePath.root PurePath.names].
    destruct r; [|reflexivity]. destruct l; [|reflexivity].
    exfalso. apply Hne; reflexivity. }
  rewrite Hp, lower_app, lower_join, (lower_root r Hr). reflexivity.
Qed.

Lemma normalize_idempotent (rel : string) :
  normalize_rel_path (normalize_rel_path rel) = normalize_rel_path rel.
Proof.
  set (ns := filter PurePath.kept_name (PyStr.split "/" rel)).
  assert (Hk : forallb PurePath.kept_name ns = true) by apply filter_kept_sep_free.
  assert (Hs : forallb (sep_free "/") ns = true)
    by (apply forallb_filter, split_parts_sep_free).
  assert (Hk' : forallb PurePath.kept_name (map PyStr.lower ns) = true)
    by (rewrite forallb_map_lower; [exact Hk | apply lower_kept_name]).
  assert (Hs' : forallb (sep_free "/") (map PyStr.lower ns) = true)
    by (rewrite forallb_map_lower; [exact Hs | apply lower_sep_free]).
  pose proof (parse_root_cases rel) as Hr.
  assert (Hform : normalize_rel_path rel = "."
                  \/ (normalize_rel_path rel
                      = (PurePath.parse_root rel ++ PyStr.join "/" (map PyStr.lower ns))%string
                      /\ (PurePath.parse_root rel = "" -> map PyStr.lower ns <> []))).
  { unfold normalize_rel_path, PurePath.parse, PurePath.as_posix.
    cbn [PurePath.root PurePath.names]. fold ns.
    destruct (PurePath.parse_root rel) as [|c r] eqn:Hroot.
    - destruct ns as [|x ns']; [left; reflexivity|]. right. split; [|discriminate].
      change (("" ++ PyStr.join "/" (x :: ns'))%string) with (PyStr.join "/" (x :: ns')).
      rewrite lower_join. reflexivity.
    - right. split; [|discriminate].
      rewrite lower_app, lower_join, (lower_root _ Hr). reflexivity. }
  destruct Hform as [->|[-> Hne]]; [reflexivity|].
  rewrite (normalize_rooted_plain _ _ Hr Hs' Hk' Hne), map_map.
  f_equal. f_equal. apply map_ext. intros a. apply lower_idem.
Qed.

(** ** Dictionaries in insertion order *)

Section Dictionaries.

Context {V : Type}.

Lemma dict_mem_in (key : string) (d : list (string * V)) :
  dict_mem key d = true <-> In key (map fst d).
Proof.
  unfold dict_mem. induction d as [|[k v] d IH]; cbn.
  - split; [discriminate|tauto].
  - destruct (String.eqb_spec k key) as [->|Hne].
    + split; auto.
    + rewrite IH. split; [auto|]. intros [H|H]; [congruence|exact H].
Qed.

Lemma dict_get_app (key : string) (d d' : list (string * V)) :
  dict_get key (d ++ d')
  = match dict_get key d with
    | Some v => Some v
    | None => dict_get key d'
    end.
Proof.
  induction d as [|[k v] d IH]; cbn; [reflexivity|].
  destruct (String.eqb k key); [reflexivity|exact IH].
Qed.

Lemma dict_get_in (key : string) (v : V) (d : list (string * V)) :
  dict_get key d = Some v -> In (key, v) d.
Proof.
  induction d as [|[k w] d IH]; cbn; [discriminate|].
  destruct (String.eqb_spec k key) as [->|Hne].
  - intros H. injection H as ->. left. reflexivity.
  - intros H. right. apply IH. exact H.
Qed.

Lemma dict_in_get (key : string) (v : V) (d : list (string * V)) :
  NoDup (map fst d) -> In (key, v) d -> dict_get key d = Some v.
Proof.
  induction d as [|[k w] d IH]; cbn; [tauto|].
  intros Hnd [H|H].
  - injection H as -> ->. rewrite String.eqb_refl. reflexivity.
  - inversion Hnd as [|? ? Hnot Hnd']; subst.
    destruct (String.eqb_spec k key) as [->|Hne].
    + exfalso. apply Hnot. apply in_map_iff. exists (key, v). auto.
    + apply IH; assumption.
Qed.

Lemma dict_add_nodup (key : string) (v : V) (d : list (string * V)) :
  NoDup (map fst d) -> dict_mem key d = false ->
  NoDup (map fst (d ++ [(key, v)])).
Proof.
  intros Hnd Hmem. rewrite map_app. cbn.
  apply NoDup_app; [exact Hnd | repeat constructor; tauto |].
  intros x Hx [<-|[]].
  apply dict_mem_in in Hx. congruence.
Qed.

Lemma dict_mem_app_l (key : string) (d d' : list (string * V)) :
  dict_mem key d = true -> dict_mem key (d ++ d') = true.
Proof.
  rewrite !dict_mem_in, map_app, in_app_iff. auto.
Qed.

End Dictionaries.

(** ** The dictionary of metadata records *)

Lemma add_row_nodup (rows : list ResultRow) :
  forall acc, NoDup (map fst (fst acc)) -> NoDup (map fst (fst (fold_left add_row rows acc))).
Proof.
  induction rows as [|r rows IH]; intros acc H; cbn; [exact H|].
  apply IH. destruct acc as [d n]. cbn [add_row].
  destruct (dict_mem _ d) eqn:Hmem; cbn [fst]; [exact H|].
  apply dict_add_nodup; assumption.
Qed.

Lemma add_row_count (rows : list ResultRow) :
  forall acc,
    List.length (fst (fold_left add_row rows acc)) + snd (fold_left add_row rows acc)
    = List.length (fst acc) + snd acc + List.length rows.
Proof.
  induction rows as [|r rows IH]; intros acc; cbn [fold_left List.length]; [lia|].
  rewrite IH. destruct acc as [d n]. cbn [add_row].
  destruct (dict_mem _ d); cbn [fst snd]; rewrite ?length_app; cbn; lia.
Qed.

Lemma add_row_keeps (rows : list ResultRow) (key : string) (m : PhotoMeta) :
  forall acc,
    dict_get key (fst acc) = Some m ->
    dict_get key (fst (fold_left add_row rows acc)) = Some m.
Proof.
  induction rows as [|r rows IH]; intros acc H; cbn; [exact H|].
  apply IH. destruct acc as [d n]. cbn [add_row].
  destruct (dict_mem _ d); cbn [fst] in *; [exact H|].
  rewrite dict_get_app, H. reflexivity.
Qed.

Lemma add_row_fresh (acc : list (string * PhotoMeta) * nat) (r : ResultRow) :
  dict_mem (row_key r) (fst acc) = false ->
  dict_get (row_key r) (fst (add_row acc r)) = Some (row_meta r).
Proof.
  destruct acc as [d n]. cbn [fst add_row]. fold (row_key r). intros H. rewrite H.
  cbn [fst]. rewrite dict_get_app.
  unfold dict_mem in H. destruct (dict_get (row_key r) d); [discriminate|].
  cbn. rewrite String.eqb_refl. reflexivity.
Qed.

Lemma add_row_present (acc : list (string * PhotoMeta) * nat) (r : ResultRow) :
  dict_mem (row_key r) (fst (add_row acc r)) = true.
Proof.
  destruct (dict_mem (row_key r) (fst acc)) eqn:Hmem.
  - destruct acc as [d n]. cbn [fst add_row] in *. fold (row_key r). rewrite Hmem.
    exact Hmem.
  - unfold dict_mem. rewrite (add_row_fresh acc r Hmem). reflexivity.
Qed.

Lemma add_row_mem_keeps (rows : list ResultRow) (key : string) :
  forall acc,
    dict_mem key (fst acc) = true ->
    dict_mem key (fst (fold_left add_row rows acc)) = true.
Proof.
  intros acc H. unfold dict_mem in *.
  destruct (dict_get key (fst acc)) as [m|] eqn:Hg; [|discriminate].
  rewrite (add_row_keeps rows key m acc Hg). reflexivity.
Qed.

Lemma load_rows_first_wins (pre : list ResultRow) (row : ResultRow) (post : list ResultRow) :
  (forall r, In r pre -> row_key r <> row_key row) ->
  dict_get (row_key row) (fst (load_rows (pre ++ row :: post))) = Some (row_meta row).
Proof.
  intros Hpre. unfold load_rows. rewrite fold_left_app. cbn [fold_left].
  apply add_row_keeps. apply add_row_fresh.
  destruct (dict_mem (row_key row) (fst (fold_left add_row pre ([], 0)))) eqn:Hmem;
    [|reflexivity].
  exfalso. unfold dict_mem in Hmem.
  destruct (dict_get (row_key row) (fst (fold_left add_row pre ([], 0)))) as [m|] eqn:Hg;
    [|discriminate].
  apply dict_get_in, add_row_members in Hg.
  destruct Hg as [[]|(r & Hin & Hk & _)]. exact (Hpre r Hin (eq_sym Hk)).
Qed.

Lemma read_database_metadata_rows (db : Store) (rows : list ResultRow) :
  query_rows db = Some rows -> read_database_metadata db = fst (load_rows rows).
Proof. intros H. unfold read_database_metadata. rewrite H. reflexivity. Qed.

(** X1: the dictionary the extractor returns has no key twice; if the
    query ran, the number of its records and the logged number of
    duplicates add up to the number of rows, and the key of every row is
    in it. *)
Theorem X1_metadata_keys_unique_and_counted (db : Store) :
  NoDup (map fst (read_database_metadata db))
  /\ forall rows,
       query_rows db = Some rows ->
       List.length (read_database_metadata db) + snd (load_rows rows) = List.length rows
       /\ forall row, In row rows ->
                      dict_mem (row_key row) (read_database_metadata db) = true.
Proof.
  split.
  - unfold read_database_metadata. destruct (query_rows db) as [rows|]; [|constructor].
    apply add_row_nodup. constructor.
  - intros rows Hq. rewrite (read_database_metadata_rows db rows Hq). split.
    + unfold load_rows. rewrite add_row_count. cbn. lia.
    + intros row Hin. apply in_split in Hin. destruct Hin as (pre & post & ->).
      unfold load_rows. rewrite fold_left_app. cbn [fold_left].
      apply add_row_mem_keeps, add_row_present.
Qed.

(** X2: when several rows of the result normalise to one key, the record
    kept under that key is the one of the first such row. *)
Theorem X2_first_row_wins (db : Store) (pre : list ResultRow) (row : ResultRow)
    (post : list ResultRow) :
  query_rows db = Some (pre ++ row :: post) ->
  (forall r, In r pre -> row_key r <> row_key row) ->
  dict_get (row_key row) (read_database_metadata db) = Some (row_meta row).
Proof.
  intros Hq Hpre. rewrite (read_database_metadata_rows db _ Hq).
  apply load_rows_first_wins. exact Hpre.
Qed.

(** X3: for a store whose texts are ASCII, on which the case mapping and
    the blank test of the embedding are Python's, every record the extractor
    returns is keyed by the normal form of its own relative path; the key is
    lower-case and a fixed point of the normaliser, the relative path is a
    fixed point of the truncation, and the description has no blank at
    either end. *)
Theorem X3_metadata_record_is_normal (db : Store) (key : string) (m : PhotoMeta) :
  ascii_store db = true ->
  In (key, m) (read_database_metadata db) ->
  key = normalize_rel_path (relative_path m)
  /\ normalize_rel_path key = key
  /\ PyStr.lower key = key
  /\ truncate_to_apple_path (relative_path m) = relative_path m
  /\ no_outer_blank (description m).
Proof.
  intros _ H. destruct (emitted_from_included_row db key m H) as (row & _ & _ & -> & ->).
  unfold metadata_key, row_meta. cbn [relative_path description select_row
    row_ZFILENAME row_ZDIRECTORY row_DESCRIPTION].
  repeat split.
  - apply normalize_idempotent.
  - unfold normalize_rel_path. apply lower_idem.
  - apply truncate_idempotent.
  - apply strip_no_outer_blank.
  - apply strip_no_outer_blank.
Qed.

(** ** The dictionary of scanned files *)

Lemma scan_file_cases (base : PurePath.t) (dir : list string)
    (d : list (string * FileRecord)) (file : string) :
  scan_file base dir d file
  = if supported file && negb (dict_mem (file_key dir file) d)
    then d ++ [(file_key dir file, scanned_record base dir file)]
    else d.
Proof.
  unfold scan_file, supported, file_key, scanned_record.
  destruct (existsb _ SUPPORTED_EXTENSIONS); cbn; [|reflexivity].
  destruct (dict_mem _ d); reflexivity.
Qed.

Lemma scan_files_members (base : PurePath.t) (dir : list string) (files : list string) :
  forall d key r,
    In (key, r) (fold_left (scan_file base dir) files d) ->
    In (key, r) d
    \/ exists file,
         In file files /\ supported file = true
         /\ key = file_key dir file /\ r = scanned_record base dir file.
Proof.
  induction files as [|f files IH]; intros d key r H; cbn in H; [left; exact H|].
  apply IH in H. destruct H as [H|(file & Hin & Hs & Hk & Hr)].
  - rewrite scan_file_cases in H.
    destruct (supported f) eqn:Hf; cbn in H; [|left; exact H].
    destruct (dict_mem (file_key dir f) d); cbn in H; [left; exact H|].
    apply in_app_or in H. destruct H as [H|[H|[]]]; [left; exact H|].
    injection H as <- <-. right. exists f. cbn. auto.
  - right. exists file. cbn. auto.
Qed.

Lemma scan_files_nodup (base : PurePath.t) (dir : list string) (files : list string) :
  forall d, NoDup (map fst d) ->
            NoDup (map fst (fold_left (scan_file base dir) files d)).
Proof.
  induction files as [|f files IH]; intros d H; cbn; [exact H|].
  apply IH. rewrite scan_file_cases.
  destruct (supported f); cbn; [|exact H].
  destruct (dict_mem (file_key dir f) d) eqn:Hm; cbn; [exact H|].
  apply dict_add_nodup; assumption.
Qed.

Lemma scan_files_mem_keeps (base : PurePath.t) (dir : list string) (files : list string)
    (key : string) :
  forall d, dict_mem key d = true ->
            dict_mem key (fold_left (scan_file base dir) files d) = true.
Proof.
  induction files as [|f files IH]; intros d H; cbn; [exact H|].
  apply IH. rewrite scan_file_cases.
  destruct (supported f && negb (dict_mem (file_key dir f) d)); [|exact H].
  apply dict_mem_app_l. exact H.
Qed.

Lemma scan_files_present (base : PurePath.t) (dir : list string) (files : list string)
    (file : string) :
  In file files -> supported file = true ->
  forall d, dict_mem (file_key dir file) (fold_left (scan_file base dir) files d) = true.
Proof.
  intros Hin Hs d. apply in_split in Hin. destruct Hin as (pre & post & ->).
  rewrite fold_left_app. cbn [fold_left]. apply scan_files_mem_keeps.
  rewrite scan_file_cases, Hs. cbn.
  destruct (dict_mem (file_key dir file) (fold_left (scan_file base dir) pre d)) eqn:Hm;
    cbn; [exact Hm|].
  apply dict_mem_in. rewrite map_app, in_app_iff. right. left. reflexivity.
Qed.

Lemma scan_entry_cases (base : PurePath.t) (d : list (string * FileRecord)) (e : WalkEntry) :
  scan_entry base d e
  = if existsb is_apple_part (filter PyStr.truthy (walk_dir e))
    then fold_left (scan_file base (walk_dir e)) (walk_files e) d
    else d.
Proof. reflexivity. Qed.

Lemma scan_walk_members (base : PurePath.t) (walk : list WalkEntry) :
  forall d key r,
    In (key, r) (fold_left (scan_entry base) walk d) ->
    In (key, r) d
    \/ exists e file,
         In e walk /\ In file (walk_files e)
         /\ eligible (walk_dir e) file = true
         /\ key = file_key (walk_dir e) file
         /\ r = scanned_record base (walk_dir e) file.
Proof.
  induction walk as [|e walk IH]; intros d key r H; cbn in H; [left; exact H|].
  apply IH in H. destruct H as [H|(e' & file & Hin & Hf & He & Hk & Hr)].
  - rewrite scan_entry_cases in H.
    destruct (existsb is_apple_part (filter PyStr.truthy (walk_dir e))) eqn:Hdir;
      [|left; exact H].
    apply scan_files_members in H. destruct H as [H|(file & Hin & Hs & Hk & Hr)];
      [left; exact H|].
    right. exists e, file. unfold eligible. fold (supported file).
    rewrite Hdir, Hs. cbn. auto.
  - right. exists e', file. cbn. auto.
Qed.

Lemma scan_walk_nodup (base : PurePath.t) (walk : list WalkEntry) :
  forall d, NoDup (map fst d) -> NoDup (map fst (fold_left (scan_entry base) walk d)).
Proof.
  induction walk as [|e walk IH]; intros d H; cbn; [exact H|].
  apply IH. rewrite scan_entry_cases.
  destruct (existsb is_apple_part _); [|exact H]. apply scan_files_nodup. exact H.
Qed.

Lemma scan_walk_mem_keeps (base : PurePath.t) (walk : list WalkEntry) (key : string) :
  forall d, dict_mem key d = true ->
            dict_mem key (fold_left (scan_entry base) walk d) = true.
Proof.
  induction walk as [|e walk IH]; intros d H; cbn; [exact H|].
  apply IH. rewrite scan_entry_cases.
  destruct (existsb is_apple_part _); [|exact H]. apply scan_files_mem_keeps. exact H.
Qed.


(** X5: the scan returns no key twice, and it loses no eligible file
    except to an earlier file of the same key: the key of every eligible
    file of the walk is in the result. *)
Theorem X5_scan_keys_unique_and_complete
    (photo_dir_ : string) (exists_ : bool) (walk : list WalkEntry) :
  NoDup (map fst (scan_photo_files photo_dir_ exists_ walk))
  /\ forall e file,
       exists_ = true -> In e walk -> In file (walk_files e) ->
       eligible (walk_dir e) file = true ->
       dict_mem (file_key (walk_dir e) file) (scan_photo_files photo_dir_ exists_ walk)
       = true.
Proof.
  unfold scan_photo_files. split.
  - destruct exists_; cbn [negb]; [|constructor]. apply scan_walk_nodup. constructor.
  - intros e file -> Hin Hf He. cbn [negb].
    apply in_split in Hin. destruct Hin as (pre & post & ->).
    rewrite fold_left_app. cbn [fold_left]. apply scan_walk_mem_keeps.
    unfold eligible in He. apply andb_true_iff in He. destruct He as [Hdir Hs].
    rewrite scan_entry_cases, Hdir. apply scan_files_present; assumption.
Qed.

(** ** The matcher *)

Lemma match_metadata_fold (metadata : list (string * PhotoMeta))
    (photo_files : list (string * FileRecord)) :
  match_metadata metadata photo_files
  = fold_left (match_step photo_files) metadata ([], 0).
Proof. reflexivity. Qed.

Lemma match_count (photo_files : list (string * FileRecord))
    (metadata : list (string * PhotoMeta)) :
  forall acc,
    let res := fold_left (match_step photo_files) metadata acc in
    List.length (fst res) + snd res
    = List.length (fst acc) + snd acc + List.length metadata.
Proof.
  induction metadata as [|km metadata IH]; intros acc; cbn [fold_left List.length];
    [cbn; lia|].
  cbv zeta in IH. cbv zeta. rewrite IH. destruct acc as [matched missing].
  unfold match_step. destruct (dict_get (fst km) photo_files);
    cbn [fst snd]; rewrite ?length_app; cbn; lia.
Qed.

Lemma match_members (photo_files : list (string * FileRecord))
    (metadata : list (string * PhotoMeta)) :
  forall acc p,
    In p (fst (fold_left (match_step photo_files) metadata acc)) ->
    In p (fst acc)
    \/ exists key,
         In (key, meta p) metadata /\ dict_get key photo_files = Some (record p).
Proof.
  induction metadata as [|km metadata IH]; intros acc p H; cbn in H; [left; exact H|].
  apply IH in H. destruct H as [H|(key & Hin & Hg)].
  - destruct acc as [matched missing]. unfold match_step in H.
    destruct (dict_get (fst km) photo_files) as [r|] eqn:Hg; cbn [fst] in H;
      [|left; exact H].
    apply in_app_or in H. destruct H as [H|[H|[]]]; [left; exact H|].
    subst p. right. exists (fst km). cbn. split; [left; destruct km; reflexivity|exact Hg].
  - right. exists key. cbn. auto.
Qed.

Lemma match_keeps (photo_files : list (string * FileRecord))
    (metadata : list (string * PhotoMeta)) (p : MatchedPhoto) :
  forall acc,
    In p (fst acc) -> In p (fst (fold_left (match_step photo_files) metadata acc)).
Proof.
  induction metadata as [|km metadata IH]; intros acc H; cbn; [exact H|].
  apply IH. destruct acc as [matched missing]. unfold match_step.
  destruct (dict_get (fst km) photo_files); cbn [fst] in *; [|exact H].
  apply in_or_app. left. exact H.
Qed.

Lemma match_order (photo_files : list (string * FileRecord))
    (metadata : list (string * PhotoMeta)) :
  forall acc,
    map meta (fst (fold_left (match_step photo_files) metadata acc))
    = map meta (fst acc)
      ++ map snd (filter (fun km => dict_mem (fst km) photo_files) metadata).
Proof.
  induction metadata as [|km metadata IH]; intros acc; cbn [fold_left filter map].
  - rewrite app_nil_r. reflexivity.
  - rewrite IH. destruct acc as [matched missing]. unfold match_step, dict_mem.
    destruct (dict_get (fst km) photo_files); cbn [fst map].
    + rewrite map_app, <- app_assoc. reflexivity.
    + reflexivity.
Qed.

(** X6: the matcher accounts for every metadata record once, as a pair or
    as a missing file; a pair holds the file record stored under the key of
    its metadata record; every metadata record whose key has a file is
    paired with it; and the pairs come in the order of the metadata. *)
Theorem X6_matcher_is_a_join (metadata : list (string * PhotoMeta))
    (photo_files : list (string * FileRecord)) :
  List.length (fst (match_metadata metadata photo_files))
  + snd (match_metadata metadata photo_files)
  = List.length metadata
  /\ (forall p,
         In p (fst (match_metadata metadata photo_files)) ->
         exists key,
           In (key, meta p) metadata /\ dict_get key photo_files = Some (record p))
  /\ (forall key m r,
         In (key, m) metadata -> dict_get key photo_files = Some r ->
         In (mkMatchedPhoto r m) (fst (match_metadata metadata photo_files)))
  /\ map meta (fst (match_metadata metadata photo_files))
     = map snd (filter (fun km => dict_mem (fst km) photo_files) metadata).
Proof.
  rewrite match_metadata_fold. repeat split.
  - pose proof (match_count photo_files metadata ([], 0)) as H. cbv zeta in H.
    rewrite H. cbn. lia.
  - intros p H. apply match_members in H. destruct H as [[]|H]. exact H.
  - intros key m r Hin Hg. apply in_split in Hin. destruct Hin as (pre & post & ->).
    rewrite fold_left_app. cbn [fold_left]. apply match_keeps.
    destruct (fold_left (match_step photo_files) pre ([], 0)) as [matched missing].
    unfold match_step. cbn [fst snd]. rewrite Hg. cbn [fst].
    apply in_or_app. right. left. reflexivity.
  - rewrite match_order. reflexivity.
Qed.

Lemma metadata_key_of_record (db : Store) (key : string) (m : PhotoMeta) :
  In (key, m) (read_database_metadata db) -> key = normalize_rel_path (relative_path m).
Proof.
  intros H. destruct (emitted_from_included_row db key m H) as (row & _ & _ & -> & ->).
  reflexivity.
Qed.

Lemma file_key_of_record (photo_dir_ : string) (exists_ : bool) (walk : list WalkEntry)
    (key : string) (r : FileRecord) :
  In (key, r) (scan_photo_files photo_dir_ exists_ walk) ->
  key = normalize_rel_path (rel_path r).
Proof.
  unfold scan_photo_files. destruct exists_; cbn [negb]; [|intros []].
  intros H. apply scan_walk_members in H.
  destruct H as [[]|(e & file & _ & _ & _ & -> & ->)]. reflexivity.
Qed.

(** X7: in a pair made from the extractor's records and the scanner's
    files, the relative path of the metadata and the path of the file
    relative to the scan root have the same normal form: no pair joins two
    paths that differ by more than letter case and pathlib's canonical
    form. *)
Theorem X7_pairs_join_equal_keys (db : Store) (photo_dir_ : string) (exists_ : bool)
    (walk : list WalkEntry) (p : MatchedPhoto) :
  In p (fst (match_metadata (read_database_metadata db)
               (scan_photo_files photo_dir_ exists_ walk))) ->
  normalize_rel_path (relative_path (meta p)) = normalize_rel_path (rel_path (record p)).
Proof.
  rewrite match_metadata_fold. intros H. apply match_members in H.
  destruct H as [[]|(key & Hin & Hg)].
  apply metadata_key_of_record in Hin. apply dict_get_in, file_key_of_record in Hg.
  congruence.
Qed.

(** ** Agreement of the two keys *)

(** X8: for paths of ASCII characters, on which the digit and case tests
    of the embedding are Python's, the key of a store row and the key of a
    scanned file agree when the store files the photo under a marker-free
    prefix followed by the marker folder, the scan root is the folder that
    holds the marker folder, every component is a plain name, and the two
    paths from the marker on differ at most in the case of their ASCII
    letters. *)
Theorem X8_keys_agree_when_root_holds_marker
    (prefix : list string) (marker : string) (mid : list string) (file : string)
    (dir' : list string) (file' : string) :
  forallb is_ascii (prefix ++ marker :: mid ++ [file]) = true ->
  forallb is_ascii (dir' ++ [file']) = true ->
  forallb plain_name (prefix ++ marker :: mid ++ [file]) = true ->
  forallb (fun p => negb (is_apple_part p)) prefix = true ->
  is_apple_part marker = true ->
  forallb plain_name (dir' ++ [file']) = true ->
  map PyStr.lower (dir' ++ [file']) = map PyStr.lower (marker :: mid ++ [file]) ->
  metadata_key (PyStr.join "/" (prefix ++ marker :: mid)) file = file_key dir' file'.
Proof. intros _ _. apply keys_agree_below_marker_parent_general. Qed.

Lemma X8_witness :
  metadata_key (PyStr.join "/" (["Media"; "DCIM"] ++ "100APPLE" :: ["Sub"])) "IMG_0001.JPG"
  = file_key ["100apple"; "sub"] "img_0001.jpg".
Proof.
  exact (X8_keys_agree_when_root_holds_marker ["Media"; "DCIM"] "100APPLE" ["Sub"]
           "IMG_0001.JPG" ["100apple"; "sub"] "img_0001.jpg"
           eq_refl eq_refl eq_refl eq_refl eq_refl eq_refl eq_refl).
Defined.

(** ** The write step and the failures of a turn *)

Section TurnProperties.

Context {World : Type} {C : Collaborators World}.

Lemma of_Z_four : PyStr.of_Z 4 = "4".
Proof. reflexivity. Qed.

(** X9: outside a dry run, a pair whose read succeeds, which needs a
    change and has no conflict, makes exactly one write call after the
    read; its arguments are the overwrite flag when asked for, the rating 4
    when the rating is needed, the description under both tags when the
    description is needed, and the file path last; the pair is counted as
    processed when the call succeeds and as an error when it fails, and the
    skip-all flag is left as it was. *)
Theorem X9_safe_change_is_written_once
    (args : Args) (s : Session World) (e : MatchedPhoto) (w1 : World) (ex : ExifData) :
  dry_run args = false ->
  read_exif_data (world s) (full_path (record e)) = (w1, Some ex) ->
  needs_rating (meta e) ex || needs_description (meta e) ex = true ->
  evaluate_conflict ex (needs_rating (meta e) ex) (needs_description (meta e) ex) = false ->
  let cmd :=
    (if overwrite_original args then ["-overwrite_original"] else [])
    ++ (if needs_rating (meta e) ex then ["-Rating=4"] else [])
    ++ (if needs_description (meta e) ex
        then [("-ImageDescription=" ++ description (meta e))%string;
              ("-Description=" ++ description (meta e))%string]
        else [])
    ++ [full_path (record e)] in
  let s' := migrate_entry args s e in
  step_events args s e = [EvRead (full_path (record e)); EvWrite cmd]
  /\ world s' = fst (run_exiftool_write w1 cmd)
  /\ skip_all_conflicts s' = skip_all_conflicts s
  /\ (if snd (run_exiftool_write w1 cmd)
      then processed s' = S (processed s) /\ skipped s' = skipped s /\ errors s' = errors s
      else processed s' = processed s /\ skipped s' = skipped s /\ errors s' = S (errors s)).
Proof.
  intros Hdry Hread Hneeds Hconf. cbv zeta.
  assert (H : forall evs, trace (migrate_entry args s e) = trace s ++ evs ->
                          step_events args s e = evs)
    by (intros evs; apply step_events_eq).
  revert H. unfold migrate_entry.
  rewrite (needs_exclude_empty_meta _ _ Hneeds), Hread.
  replace (negb (needs_rating (meta e) ex) && negb (needs_description (meta e) ex))
    with false
    by (destruct (needs_rating (meta e) ex), (needs_description (meta e) ex);
        cbn in *; congruence).
  rewrite Hconf. unfold apply_change, write_exif_data, build_write_cmd_args.
  rewrite Hdry.
  destruct (needs_rating (meta e) ex), (needs_description (meta e) ex);
    try discriminate Hneeds; rewrite ?of_Z_four;
    change ("-Rating=" ++ "4")%string with "-Rating=4";
    destruct (overwrite_original args); cbn [app];
    match goal with
    | |- context [run_exiftool_write w1 ?c] =>
        destruct (run_exiftool_write w1 c) as [w2 [|]]
    end;
    cbn [fst snd count_processed count_error trace world skip_all_conflicts
         processed skipped errors];
    intros H; rewrite (H _ eq_refl); repeat split; reflexivity.
Qed.

(** X10: a record with nothing to migrate is counted as skipped without
    any call to a collaborator; a pair whose read fails is counted as an
    error after that one call, with no prompt and no write; in both cases
    the skip-all flag is left as it was. *)
Theorem X10_empty_record_and_failed_read
    (args : Args) (s : Session World) (e : MatchedPhoto) :
  (favorite (meta e) = false -> description (meta e) = "" ->
   migrate_entry args s e
   = mkSession (processed s) (S (skipped s)) (errors s) (skip_all_conflicts s)
       (world s) (trace s ++ []))
  /\ (forall w1,
         favorite (meta e) = true \/ description (meta e) <> "" ->
         read_exif_data (world s) (full_path (record e)) = (w1, None) ->
         migrate_entry args s e
         = mkSession (processed s) (skipped s) (S (errors s)) (skip_all_conflicts s)
             w1 (trace s ++ [EvRead (full_path (record e))])).
Proof.
  split.
  - intros Hf Hd. unfold migrate_entry. rewrite Hf, Hd. reflexivity.
  - intros w1 Hsome Hread. unfold migrate_entry.
    replace (negb (favorite (meta e)) && negb (PyStr.truthy (description (meta e))))
      with false.
    + rewrite Hread. reflexivity.
    + destruct Hsome as [Hf|Hd]; [rewrite Hf; reflexivity|].
      apply truthy_iff in Hd. rewrite Hd. destruct (favorite (meta e)); reflexivity.
Qed.

(** X11: the exit status of [main].  A missing exiftool gives status 2
    whatever the database and the files are; otherwise an invalid database
    gives 3; otherwise a scan with no file gives 4; the status is 1 exactly
    when the merge loop counted an error, and a status of 0 means no error
    was counted.  Unless the run reaches the merge loop, no collaborator is
    called and the three counters are zero. *)
Theorem X11_exit_status (exiftool_found : bool) (args : Args) (db : option Store)
    (dir_exists : bool) (walk : list WalkEntry) (w : World) :
  let out := main exiftool_found args db dir_exists walk w in
  (exiftool_found = false -> exit_code out = EXIT_EXIFTOOL_MISSING)
  /\ (exiftool_found = true -> validate_database db = false ->
      exit_code out = EXIT_INVALID_DB)
  /\ (exiftool_found = true -> validate_database db = true ->
      scan_photo_files (photo_dir args) dir_exists walk = [] ->
      exit_code out = EXIT_NO_PHOTOS)
  /\ (exit_code out = EXIT_GENERAL_ERROR <-> errors (final out) <> 0)
  /\ (exit_code out = EXIT_SUCCESS -> errors (final out) = 0)
  /\ ((forall n, ~ In (PhaseMigrate n) (phases out)) ->
      final out = mkSession 0 0 0 false w []).
Proof.
  cbv zeta. unfold main.
  destruct exiftool_found; cbn [negb].
  2: { repeat split; try discriminate; cbn; try congruence; auto. }
  destruct (validate_database db); cbn [negb].
  2: { repeat split; try discriminate; cbn; try congruence; auto. }
  destruct (scan_photo_files (photo_dir args) dir_exists walk) as [|f files].
  { repeat split; try discriminate; cbn; try congruence; auto. }
  destruct (fst (match_metadata _ (f :: files))) as [|p matched].
  { repeat split; try discriminate; cbn; try congruence; auto. }
  cbn [exit_code final phases].
  destruct (Nat.eqb_spec (errors (run_migration args w (p :: matched))) 0) as [He|He].
  - repeat split; try discriminate; try congruence; auto.
    intros H. exfalso. eapply H. cbn. do 5 right. left. reflexivity.
  - repeat split; try discriminate; try congruence; auto.
    intros H. exfalso. eapply H. cbn. do 5 right. left. reflexivity.
Qed.

End TurnProperties.

(** ** The shape of the query plan *)


(** X12: the plan of the resolver never joins a table twice; it joins the
    description table only beside the attributes table; the title clause
    comes with the join of the attributes table and the caption clause
    exactly with the join of the extended-attributes table; and the long
    description clause comes without a join of its table exactly when the
    description table is detected but neither linking column is there. *)
Theorem X12_plan_shape (tables_ : Schema) :
  let plan := build_metadata_query tables_ in
  NoDup (map join_table (joins plan))
  /\ (existsb is_desc_join (joins plan) = true -> existsb is_attrs_join (joins plan) = true)
  /\ (In ClauseTitle (desc_clauses plan) -> existsb is_attrs_join (joins plan) = true)
  /\ (In ClauseCaption (desc_clauses plan) <-> In JoinExtended (joins plan))
  /\ (In ClauseLong (desc_clauses plan) /\ existsb is_desc_join (joins plan) = false
      <-> long_detected tables_ = true /\ description_linked tables_ = false).
Proof.
  cbv zeta. rewrite joins_shape, desc_clauses_order.
  unfold long_detected, title_detected, caption_detected, description_linked.
  destruct (has_table "ZADDITIONALASSETATTRIBUTES" tables_);
    destruct (has_column "ZTITLE" (columns_of tables_ "ZADDITIONALASSETATTRIBUTES"));
    destruct (has_table "ZASSETDESCRIPTION" tables_);
    destruct (has_column "ZASSETDESCRIPTION"
                (columns_of tables_ "ZADDITIONALASSETATTRIBUTES"));
    destruct (has_column "ZASSETATTRIBUTES" (columns_of tables_ "ZASSETDESCRIPTION"));
    destruct (has_column "ZLONGDESCRIPTION" (columns_of tables_ "ZASSETDESCRIPTION"));
    destruct (has_table "ZEXTENDEDATTRIBUTES" tables_);
    destruct (has_column "ZCAPTION" (columns_of tables_ "ZEXTENDEDATTRIBUTES"));
    destruct (has_column "ZADDITIONALATTRIBUTES" (columns_of tables_ "ZASSET"));
    cbn;
    (split; [repeat constructor; cbn; intuition discriminate|]);
    repeat split; intros; cbn in *; intuition (try discriminate; auto).
Qed.

(** ** The console prompt *)

Lemma prompt_answer_step (line : string) (rest : list string) :
  prompt_answer (line :: rest)
  = match answer_of line with
    | Some d => Some (d, rest)
    | None => prompt_answer rest
    end.
Proof.
  cbn [prompt_answer]. unfold answer_of.
  destruct (String.eqb (PyStr.lower (PyStr.strip line)) "y"); [reflexivity|].
  destruct (String.eqb (PyStr.lower (PyStr.strip line)) "s"); [reflexivity|].
  destruct (String.eqb (PyStr.lower (PyStr.strip line)) "n"); reflexivity.
Qed.

(** X13: for typed lines of ASCII characters, on which the blank test and
    the case mapping of the embedding are Python's, the prompt skips every
    line that is not y, n or s once stripped and lower-cased, answers with
    the first line that is one, leaving the lines after it unread, and has
    no answer exactly when no typed line is one. *)
Theorem X13_prompt_takes_first_valid_answer :
  (forall pre line post d,
      forallb is_ascii (pre ++ [line]) = true ->
      Forall (fun l => answer_of l = None) pre ->
      answer_of line = Some d ->
      prompt_answer (pre ++ line :: post) = Some (d, post))
  /\ (forall typed,
         forallb is_ascii typed = true ->
         (prompt_answer typed = None <-> Forall (fun l => answer_of l = None) typed)).
Proof.
  split.
  - intros pre line post d _ Hpre Hline. induction Hpre as [|l pre Hl _ IH]; cbn [app].
    + rewrite prompt_answer_step, Hline. reflexivity.
    + rewrite prompt_answer_step, Hl. exact IH.
  - intros typed _. induction typed as [|l typed IH].
    + split; [constructor|reflexivity].
    + rewrite prompt_answer_step. destruct (answer_of l) as [d|] eqn:Hl.
      * split; [discriminate|]. intros H. inversion H; congruence.
      * rewrite IH. split; [constructor; assumption|]. intros H. inversion H; assumption.
Qed.

Lemma X13_witness :
  prompt_answer (["maybe"; ""] ++ "  S " :: ["y"]) = Some (SkipAll, ["y"]).
Proof.
  apply (proj1 X13_prompt_takes_first_valid_answer ["maybe"; ""] "  S " ["y"] SkipAll).
  - reflexivity.
  - repeat constructor.
  - reflexivity.
Defined.

(** ** The output of exiftool *)

Lemma read_exif_line_split (acc : ExifData) (raw_line : string) :
  read_exif_line acc raw_line
  = mkExifData
      (match line_rating raw_line with Some r => Some r | None => rating acc end)
      (match line_description raw_line with
       | Some d => Some d
       | None => exif_description acc
       end).
Proof.
  unfold read_exif_line, line_rating, line_description, line_key_value.
  destruct (String.eqb_spec (PyStr.strip raw_line) "") as [->|Hne].
  - cbn. destruct acc; reflexivity.
  - destruct (partition_colon (PyStr.strip raw_line)) as [k v]. cbn [fst snd].
    destruct (String.eqb_spec (PyStr.lower (PyStr.strip k)) "rating") as [->|Hr].
    + cbn. destruct (py_int (PyStr.strip v)); destruct acc; reflexivity.
    + destruct (String.eqb (PyStr.lower (PyStr.strip k)) "imagedescription"
                || String.eqb (PyStr.lower (PyStr.strip k)) "description"); cbn.
      * destruct (PyStr.truthy (PyStr.strip v)); destruct acc; reflexivity.
      * destruct acc; reflexivity.
Qed.

Lemma parse_exif_fold (lines : list string) :
  forall acc,
    fold_left read_exif_line lines acc
    = mkExifData (last_some (map line_rating lines) (rating acc))
        (last_some (map line_description lines) (exif_description acc)).
Proof.
  induction lines as [|l lines IH]; intros acc; cbn [fold_left map last_some].
  - destruct acc; reflexivity.
  - rewrite IH, read_exif_line_split. cbn [rating exif_description].
    destruct (line_rating l), (line_description l); reflexivity.
Qed.

Lemma last_some_from {A : Type} (P : A -> Prop) (xs : list (option A)) :
  (forall a, In (Some a) xs -> P a) ->
  forall default a,
    (forall b, default = Some b -> P b) ->
    last_some xs default = Some a -> P a.
Proof.
  induction xs as [|[x|] xs IH]; intros Hxs default a Hd H; cbn in H.
  - apply Hd. exact H.
  - eapply IH; [| |exact H].
    + intros b Hb. apply Hxs. right. exact Hb.
    + intros b Hb. injection Hb as <-. apply Hxs. left. reflexivity.
  - eapply IH; [| exact Hd |exact H]. intros b Hb. apply Hxs. right. exact Hb.
Qed.

(** X14: for output lines of ASCII characters, on which the blank test,
    the case mapping and the integer reading of the embedding are Python's,
    the rating read is the integer of the last line whose key is rating and
    whose value is an integer, and the description read is the value of the
    last line whose key is description or imagedescription and whose value
    is not empty; either is absent when there is no such line, and a
    description that is read is never empty and has no blank at either
    end. *)
Theorem X14_exif_output_last_line_wins (lines : list string) :
  forallb is_ascii lines = true ->
  rating (parse_exif_output lines) = last_some (map line_rating lines) None
  /\ exif_description (parse_exif_output lines)
     = last_some (map line_description lines) None
  /\ forall d,
       exif_description (parse_exif_output lines) = Some d ->
       d <> "" /\ no_outer_blank d.
Proof.
  intros _.
  unfold parse_exif_output. rewrite parse_exif_fold. cbn [rating exif_description].
  split; [reflexivity|]. split; [reflexivity|].
  intros d. apply (last_some_from (fun d => d <> "" /\ no_outer_blank d)).
  - intros a Ha. apply in_map_iff in Ha. destruct Ha as (l & Hl & _).
    unfold line_description in Hl.
    destruct ((String.eqb (fst (line_key_value l)) "imagedescription"
               || String.eqb (fst (line_key_value l)) "description")
              && PyStr.truthy (snd (line_key_value l))) eqn:Hc; [|discriminate].
    injection Hl as <-. apply andb_true_iff in Hc. destruct Hc as [_ Ht].
    split; [apply truthy_iff; exact Ht|].
    unfold line_key_value. destruct (partition_colon (PyStr.strip l)) as [k v].
    cbn [snd]. apply strip_no_outer_blank.
  - discriminate.
Qed.

Lemma X14_witness :
  rating (parse_exif_output
            ["Rating                          : 3";
             "Description                     : Harbour at dusk ";
             "Rating: 4"; "Description:"])
  = Some 4%Z
  /\ exif_description
       (parse_exif_output
          ["Rating                          : 3";
           "Description                     : Harbour at dusk ";
           "Rating: 4"; "Description:"])
     = Some "Harbour at dusk".
Proof.
  destruct (X14_exif_output_last_line_wins
              ["Rating                          : 3";
               "Description                     : Harbour at dusk ";
               "Rating: 4"; "Description:"] eq_refl) as (Hr & Hd & _).
  split; [rewrite Hr|rewrite Hd]; vm_compute; reflexivity.
Defined.

(** ** The cleaning of the path argument *)

Lemma rstrip_with_fixed (p : ascii -> bool) (s : string) :
  (forall c, last_char s = Some c -> p c = false) ->
  PyStrip.rstrip_with p s = s.
Proof.
  induction s as [|c s IH]; cbn [PyStrip.rstrip_with]; [reflexivity|].
  intros H. destruct s as [|d s].
  - cbn. rewrite (H c eq_refl). reflexivity.
  - rewrite IH by (intros e He; apply H; exact He). reflexivity.
Qed.

Lemma strip_with_fixed (p : ascii -> bool) (s : string) :
  (forall c, first_char s = Some c -> p c = false) ->
  (forall c, last_char s = Some c -> p c = false) ->
  PyStrip.strip_with p s = s.
Proof.
  intros Hf Hl. unfold PyStrip.strip_with.
  rewrite (lstrip_with_fixed p s Hf). apply rstrip_with_fixed. exact Hl.
Qed.

Lemma strip_fixed (s : string) : no_outer_blank s -> PyStr.strip s = s.
Proof. intros [Hf Hl]. rewrite strip_is_with. apply strip_with_fixed; assumption. Qed.

Lemma first_char_app (a b : string) :
  a <> "" -> first_char (a ++ b) = first_char a.
Proof. destruct a; [congruence|reflexivity]. Qed.

Lemma last_char_app (a b : string) :
  b <> "" -> last_char (a ++ b) = last_char b.
Proof.
  intros Hb. induction a as [|c a IH]; [reflexivity|].
  cbn [String.append last_char]. destruct (a ++ b)%string eqn:E.
  - destruct a; [cbn in E; congruence|discriminate].
  - exact IH.
Qed.

Lemma string_app_assoc (a b c : string) : ((a ++ b) ++ c = a ++ (b ++ c))%string.
Proof. induction a as [|x a IH]; cbn; congruence. Qed.

Lemma endswith_app (a b : string) : PyStr.endswith (a ++ b) b = true.
Proof.
  unfold PyStr.endswith. rewrite string_app_length.
  replace (String.length a + String.length b - String.length b)
    with (String.length a) by lia.
  rewrite drop_app_exact, String.eqb_refl, andb_true_r. apply Nat.leb_le. lia.
Qed.

Lemma endswith_other (a b suffix : string) :
  String.length b = String.length suffix -> b <> suffix ->
  PyStr.endswith (a ++ b) suffix = false.
Proof.
  intros Hlen Hne. unfold PyStr.endswith. rewrite string_app_length, Hlen.
  replace (String.length a + String.length suffix - String.length suffix)
    with (String.length a) by lia.
  rewrite drop_app_exact. apply String.eqb_neq in Hne. rewrite Hne.
  apply andb_false_r.
Qed.

Lemma drop_last_app (a b : string) :
  PyStr.drop_last (String.length b) (a ++ b) = a.
Proof.
  unfold PyStr.drop_last. rewrite string_app_length.
  replace (String.length a + String.length b - String.length b)
    with (String.length a) by lia.
  apply take_app_exact.
Qed.

Lemma not_quote (s : option ascii) (c : ascii) :
  s <> Some dquote -> s = Some c -> Ascii.eqb dquote c = false.
Proof.
  intros Hne ->. apply Ascii.eqb_neq. congruence.
Qed.

Lemma cleanup_flagged (p flag : string) :
  flag = " -v" \/ flag = " --verbose" ->
  p <> "" -> no_outer_blank p -> first_char p <> Some dquote ->
  cleanup_path_arg (p ++ flag) = (p, true).
Proof.
  intros Hflag Hne [Hf Hl] Hq.
  assert (Hfl : flag <> "") by (destruct Hflag as [->| ->]; discriminate).
  assert (Hlast : last_char flag = Some "v"%char \/ last_char flag = Some "e"%char)
    by (destruct Hflag as [->| ->]; [left|right]; reflexivity).
  assert (Hstrip : strip_arg_quotes (p ++ flag) = (p ++ flag)%string).
  { unfold strip_arg_quotes. rewrite strip_fixed.
    - apply strip_with_fixed; intros c Hc.
      + rewrite first_char_app in Hc by exact Hne. exact (not_quote _ c Hq Hc).
      + rewrite last_char_app in Hc by exact Hfl.
        destruct Hlast as [H|H]; rewrite H in Hc; injection Hc as <-; reflexivity.
    - split; intros c Hc.
      + rewrite first_char_app in Hc by exact Hne. apply Hf. exact Hc.
      + rewrite last_char_app in Hc by exact Hfl.
        destruct Hlast as [H|H]; rewrite H in Hc; injection Hc as <-; reflexivity. }
  unfold cleanup_path_arg. rewrite Hstrip.
  destruct Hflag as [->| ->].
  - rewrite endswith_app.
    change 3 with (String.length " -v"). rewrite drop_last_app.
    rewrite strip_fixed by (split; assumption). reflexivity.
  - replace (p ++ " --verbose")%string with ((p ++ " --verb") ++ "ose")%string
      by (rewrite string_app_assoc; reflexivity).
    rewrite (endswith_other (p ++ " --verb") "ose" " -v") by (reflexivity || discriminate).
    rewrite string_app_assoc. cbn [String.append].
    rewrite endswith_app.
    change 10 with (String.length " --verbose"). rewrite drop_last_app.
    rewrite strip_fixed by (split; assumption). reflexivity.
Qed.

(** X15: for an argument of ASCII characters, on which the blank test of
    the embedding is Python's, the cleaned path never starts or ends with a
    blank; a non-empty path that is already clean and is followed by the
    flag -v or --verbose after a blank comes back alone with the verbose
    mark set; and a clean path that ends with neither flag comes back
    unchanged with the mark clear. *)
Theorem X15_cleanup_path_arg :
  (forall value,
      is_ascii value = true -> no_outer_blank (fst (cleanup_path_arg value)))
  /\ (forall p flag,
         is_ascii p = true ->
         flag = " -v" \/ flag = " --verbose" ->
         p <> "" -> no_outer_blank p -> first_char p <> Some dquote ->
         cleanup_path_arg (p ++ flag) = (p, true))
  /\ (forall p,
         is_ascii p = true ->
         no_outer_blank p ->
         first_char p <> Some dquote -> last_char p <> Some dquote ->
         PyStr.endswith p " -v" = false -> PyStr.endswith p " --verbose" = false ->
         cleanup_path_arg p = (p, false)).
Proof.
  split; [|split].
  - intros value _. unfold cleanup_path_arg.
    destruct (PyStr.endswith _ " -v"); [apply strip_no_outer_blank|].
    destruct (PyStr.endswith _ " --verbose"); apply strip_no_outer_blank.
  - intros p flag _. exact (cleanup_flagged p flag).
  - intros p _ Hb Hf Hl Hv Hverb.
    assert (Hstrip : strip_arg_quotes p = p).
    { unfold strip_arg_quotes. rewrite (strip_fixed p Hb).
      apply strip_with_fixed; intros c Hc;
        [exact (not_quote _ c Hf Hc) | exact (not_quote _ c Hl Hc)]. }
    unfold cleanup_path_arg. rewrite Hstrip, Hv, Hverb, (strip_fixed p Hb). reflexivity.
Qed.

Lemma X15_witness :
  cleanup_path_arg ("/mnt/backup/My Photos" ++ " --verbose") = ("/mnt/backup/My Photos", true).
Proof.
  apply (proj1 (proj2 X15_cleanup_path_arg) "/mnt/backup/My Photos" " --verbose").
  - reflexivity.
  - right. reflexivity.
  - discriminate.
  - split; intros c H; injection H as <-; reflexivity.
  - discriminate.
Defined.

(** ** A second pass *)

(** X16: what the write step writes satisfies the test of the next pass:
    on a file that carries the rating and the description written for a
    record, the record needs neither, so a second pass over it is a no-op,
    and there is no conflict to report. *)
Theorem X16_written_values_need_nothing (m : PhotoMeta) (existing : ExifData) :
  needs_rating m (written_exif m existing) = false
  /\ needs_description m (written_exif m existing) = false
  /\ evaluate_conflict (written_exif m existing)
       (needs_rating m (written_exif m existing))
       (needs_description m (written_exif m existing)) = false.
Proof.
  assert (Hr : needs_rating m (written_exif m existing) = false).
  { unfold written_exif. destruct (needs_rating m existing) eqn:Hn.
    - unfold needs_rating. cbn. apply andb_false_r.
    - unfold needs_rating in *. cbn [rating]. exact Hn. }
  assert (Hd : needs_description m (written_exif m existing) = false).
  { unfold written_exif. destruct (needs_description m existing) eqn:Hn.
    - unfold needs_description. cbn. rewrite String.eqb_refl. apply andb_false_r.
    - unfold needs_description in *. cbn [exif_description]. exact Hn. }
  rewrite Hr, Hd. repeat split. 
Qed.

(** ** The further theorems at concrete inputs *)

Lemma X2_witness :
  dict_get (row_key favorite_row) (read_database_metadata twin_store)
  = Some (row_meta favorite_row).
Proof.
  apply (X2_first_row_wins twin_store [] favorite_row [titled_row]).
  - vm_compute. reflexivity.
  - intros r [].
Defined.

Lemma X3_witness :
  "100apple/img_0001.jpg"
  = normalize_rel_path (relative_path (mkPhotoMeta "100APPLE/IMG_0001.JPG" true ""))
  /\ normalize_rel_path "100apple/img_0001.jpg" = "100apple/img_0001.jpg"
  /\ PyStr.lower "100apple/img_0001.jpg" = "100apple/img_0001.jpg"
  /\ truncate_to_apple_path (relative_path (mkPhotoMeta "100APPLE/IMG_0001.JPG" true ""))
     = relative_path (mkPhotoMeta "100APPLE/IMG_0001.JPG" true "")
  /\ no_outer_blank (description (mkPhotoMeta "100APPLE/IMG_0001.JPG" true "")).
Proof.
  apply (X3_metadata_record_is_normal dcim_store).
  - vm_compute. reflexivity.
  - vm_compute. left. reflexivity.
Defined.


Lemma X7_witness :
  normalize_rel_path (relative_path (meta unrated_pair))
  = normalize_rel_path (rel_path (record unrated_pair)).
Proof.
  apply (X7_pairs_join_equal_keys dcim_store "/backup" true walk_below_dcim).
  vm_compute. left. reflexivity.
Defined.

Lemma X9_witness :
  step_events live_args (fresh_session (backup_world [])) unrated_pair
  = [EvRead "/backup/100APPLE/IMG_0001.JPG";
     EvWrite ["-Rating=4"; "/backup/100APPLE/IMG_0001.JPG"]].
Proof.
  exact (proj1 (@X9_safe_change_is_written_once Script scripted live_args
                  (fresh_session (backup_world [])) unrated_pair (backup_world [])
                  (mkExifData None None) eq_refl eq_refl eq_refl eq_refl)).
Defined.

(** ** The description table without its link *)

Lemma forallb_fails {A : Type} (f : A -> bool) (l : list A) (x : A) :
  In x l -> f x = false -> forallb f l = false.
Proof.
  intros Hin Hx. destruct (forallb f l) eqn:E; [|reflexivity].
  rewrite (proj1 (forallb_forall f l) E x Hin) in Hx. discriminate.
Qed.

(** X17: when the store has the description table with its long
    description column beside the attributes table, but neither table has
    the column that links them, the resolver names the long description
    without joining its table: the statement does not prepare, the query
    raises, and the extractor returns no record at all, whatever the store
    holds. *)
Theorem X17_unlinked_description_table_yields_nothing (db : Store) :
  long_detected (tables db) = true ->
  description_linked (tables db) = false ->
  In ClauseLong (desc_clauses (build_metadata_query (tables db)))
  /\ existsb is_desc_join (joins (build_metadata_query (tables db))) = false
  /\ query_rows db = None
  /\ read_database_metadata db = [].
Proof.
  intros Hlong Hlink.
  assert (Hclause : In ClauseLong (desc_clauses (build_metadata_query (tables db))))
    by (rewrite desc_clauses_order, Hlong; left; reflexivity).
  assert (Hjoins : existsb (fun j => String.eqb (join_table j) "ZASSETDESCRIPTION")
                     (joins (build_metadata_query (tables db))) = false
                   /\ existsb is_desc_join (joins (build_metadata_query (tables db)))
                      = false).
  { rewrite joins_shape. unfold description_linked in Hlink.
    apply orb_false_iff in Hlink. destruct Hlink as [H1 H2]. rewrite H1, H2.
    destruct (has_table "ZADDITIONALASSETATTRIBUTES" (tables db));
      destruct (has_column "ZADDITIONALATTRIBUTES" (columns_of (tables db) "ZASSET"));
      destruct (has_table "ZASSETDESCRIPTION" (tables db));
      destruct (caption_detected (tables db)); split; reflexivity. }
  destruct Hjoins as [Hscope Hdesc].
  assert (Hq : query_rows db = None).
  { unfold query_rows, fetch_table_names. destruct (fault_on_read db); [reflexivity|].
    replace (statement_prepares (tables db) (build_metadata_query (tables db)))
      with false; [reflexivity|].
    symmetry. unfold statement_prepares.
    apply (forallb_fails _ _ ("ZASSETDESCRIPTION", "ZLONGDESCRIPTION")).
    - unfold named_columns. apply in_or_app. right. apply in_or_app. right.
      apply in_map_iff. exists ClauseLong. split; [reflexivity|exact Hclause].
    - unfold column_resolves. cbn [fst snd]. rewrite Hscope. reflexivity. }
  split; [exact Hclause|]. split; [exact Hdesc|]. split; [exact Hq|].
  unfold read_database_metadata. rewrite Hq. reflexivity.
Qed.

Lemma X17_witness :
  In ClauseLong (desc_clauses (build_metadata_query (tables unlinked_store)))
  /\ existsb is_desc_join (joins (build_metadata_query (tables unlinked_store))) = false
  /\ query_rows unlinked_store = None
  /\ read_database_metadata unlinked_store = [].
Proof.
  exact (X17_unlinked_description_table_yields_nothing unlinked_store eq_refl eq_refl).
Defined.
